(** * lazy-cache: a lazy, self-refreshing in-memory cache

    A shallow embedding of the Go package [lazy] (cache.go, entry.go,
    timeouts.go, params.go) and of [internal/utils.RandomizeDuration],
    followed by the properties of the specification that were checked
    against it.

    Conventions of the embedding:
    - [int64] and [time.Duration] are [Z] with the two's-complement
      wrap-around written out ([wrap64]);
    - [float64] is the kernel's binary64 ([PrimFloat.float]), so that the
      comparisons of [Timeouts.check] behave as in Go, NaN included;
    - a nil-able pointer [*T] is [option T], a nil-able [error] is
      [option error];
    - the index [map[K]*cachedEntry[T]] is a [gmap K cachedEntry]; an
      operation that mutates an entry through its pointer writes the
      entry back under its key;
    - the global random source of [math/rand], the user's loader and the
      wall clock are explicit: a [Source] threaded through the calls, a
      function of the key and of the calls made so far, and a [nowMillis]
      argument. *)

From Stdlib Require Import ZArith Bool String List Lia.
From Stdlib Require Import PrimFloat SpecFloat FloatOps.
From stdpp Require Import gmap.

Local Open Scope Z_scope.

(** ** int64 and time.Duration *)

Definition min_int64 : Z := - 2 ^ 63.
Definition max_int64 : Z := 2 ^ 63 - 1.

(** Two's-complement reduction of an integer to the int64 range. *)
Definition wrap64 (z : Z) : Z := (z + 2 ^ 63) mod 2 ^ 64 - 2 ^ 63.

Definition in_int64 (z : Z) : Prop := min_int64 <= z <= max_int64.

Definition add64 (a b : Z) : Z := wrap64 (a + b).
Definition sub64 (a b : Z) : Z := wrap64 (a - b).
Definition mul64 (a b : Z) : Z := wrap64 (a * b).
Definition neg64 (a : Z) : Z := wrap64 (- a).

(** [time.Duration] is an int64 count of nanoseconds. *)
Definition Duration : Type := Z.

Definition Nanosecond : Duration := 1.
Definition Millisecond : Duration := 1000000.
Definition Second : Duration := 1000000000.

(** [Duration.Milliseconds]: integer division truncated toward zero. *)
Definition Milliseconds (d : Duration) : Z := Z.quot d 1000000.

(** ** float64 conversions

    [float64(d)] rounds to nearest, ties to even; [time.Duration(f)]
    truncates toward zero.  Go leaves the conversion of a float that does
    not fit the integer type to the implementation; amd64 yields the
    smallest int64, which is what [int64_of_float] returns for NaN, the
    infinities and magnitudes beyond the range. *)

Definition float_of_int64 (d : Z) : float :=
  SF2Prim (binary_normalize prec emax d 0 false).

Definition int64_of_float (f : float) : Z :=
  match Prim2SF f with
  | S754_zero _ => 0
  | S754_finite s m e =>
      let mag := if 0 <=? e then Z.shiftl (Z.pos m) e
                 else Z.shiftr (Z.pos m) (- e) in
      let v := if s then - mag else mag in
      if (min_int64 <=? v) && (v <=? max_int64) then v else min_int64
  | S754_infinity _ => min_int64
  | S754_nan => min_int64
  end.

(** ** math/rand

    The package-level generator is shared mutable state.  A [Source] is a
    fixed infinite tape of raw draws together with the position of the
    next one; [rand_Float64] and [rand_Intn] each consume one draw.
    [rand.Float64] is documented to return a number in [0.0, 1.0); the
    tape is expected to hold such numbers. *)

Record Source : Type := mkSource {
  src_floats : nat -> float;
  src_ints : nat -> Z;
  src_pos : nat
}.

Definition src_advance (g : Source) : Source :=
  mkSource (src_floats g) (src_ints g) (S (src_pos g)).

Definition rand_Float64 (g : Source) : float * Source :=
  (src_floats g (src_pos g), src_advance g).

Definition rand_Intn (n : Z) (g : Source) : Z * Source :=
  (src_ints g (src_pos g) mod n, src_advance g).

(** ** internal/utils *)

Definition RandomizeDuration (d : Duration) (randomizer : float) (g : Source)
  : Duration * Source :=
  if PrimFloat.eqb randomizer 0%float then (d, g)
  else
    let '(u, g1) := rand_Float64 g in
    let add := int64_of_float (float_of_int64 d * u * randomizer)%float in
    let '(n, g2) := rand_Intn 2 g1 in
    let add := if n =? 0 then neg64 add else add in
    (add64 d add, g2).

(** The duration alone, and the generator after the call. *)
Definition jitter (d : Duration) (randomizer : float) (g : Source) : Duration :=
  fst (RandomizeDuration d randomizer g).

Definition jitter_next (d : Duration) (randomizer : float) (g : Source) : Source :=
  snd (RandomizeDuration d randomizer g).

(** ** Errors *)

(** Modelled from the spec: the declaration of the exported NotFound
    sentinel is not among the sources; the spec says that a sentinel
    error is exported and that an error is NotFound when its cause chain
    contains it.  An [error] value is the sentinel, an unrelated leaf
    error ([errors.New]), or an error wrapping another one ([fmt.Errorf]
    with the %w verb), which is what [errors.Unwrap] walks. *)
Inductive error : Type :=
| ErrNotFound : error
| errorString (s : string) : error
| wrapError (msg : string) (err : error) : error.

Definition is_sentinel (err : error) : bool :=
  match err with
  | ErrNotFound => true
  | _ => false
  end.

(** [errors.Is(err, ErrNotFound)]: compare with the target, unwrap,
    repeat until the chain ends.  The sentinel is the only target this
    package ever passes. *)
Fixpoint errors_Is_ErrNotFound (err : error) : bool :=
  is_sentinel err ||
  match err with
  | wrapError _ inner => errors_Is_ErrNotFound inner
  | _ => false
  end.

(** The cause chain of an error: the error itself, then what it wraps. *)
Fixpoint cause_chain (err : error) : list error :=
  err :: match err with
         | wrapError _ inner => cause_chain inner
         | _ => nil
         end.

(** The test the package writes four times:
    [err != nil && !errors.Is(err, ErrNotFound)]. *)
Definition is_generic_error (err : option error) : bool :=
  match err with
  | Some e => negb (errors_Is_ErrNotFound e)
  | None => false
  end.

(** ** Timeouts *)

Record Timeouts : Type := mkTimeouts {
  TTL : Duration;
  NotFoundTTL : Duration;
  ErrorTTL : Duration;
  ReloadInterval : Duration;
  Randomizer : float;
  MemsizeUpdate : Duration
}.

Definition Timeouts_check (t : Timeouts) : option string :=
  if TTL t =? 0 then Some "TTL cannot be 0"%string
  else if ReloadInterval t >? TTL t
    then Some "ReloadInterval must be less than or equal to TTL"%string
  else if PrimFloat.ltb (Randomizer t) 0%float
    then Some "Randomizer cannot be negative"%string
  else if PrimFloat.ltb 1%float (Randomizer t)
    then Some "Randomizer cannot be greater than 1"%string
  else None.


(** ** Parameters (params.go) *)

Inductive AutomaticReload : Type :=
| AutomaticReloadDisabled
| AutomaticReloadAccessedEntries
| AutomaticReloadAllEntries.

#[global] Instance AutomaticReload_eq_dec : EqDecision AutomaticReload.
Proof. solve_decision. Defined.

(** ** Metrics (internal/metrics)

    Prometheus counters and gauges move in unit steps here, so each is an
    integer.  The registry belongs to an external library; it is
    represented by what its [Register] method answers for a metric name
    ([None] for success). *)

Record Metrics : Type := mkMetrics {
  ItemsCount : Z;
  AutomaticLoadCount : Z;
  LazyLoadCount : Z;
  ErrorLoadCount : Z;
  ReadsCount : Z;
  ReceivedNatsInvalidations : Z;
  MemoryUsage : Z
}.

Definition ItemsCount_Inc (m : Metrics) : Metrics :=
  mkMetrics (ItemsCount m + 1) (AutomaticLoadCount m) (LazyLoadCount m)
    (ErrorLoadCount m) (ReadsCount m) (ReceivedNatsInvalidations m) (MemoryUsage m).
Definition ItemsCount_Dec (m : Metrics) : Metrics :=
  mkMetrics (ItemsCount m - 1) (AutomaticLoadCount m) (LazyLoadCount m)
    (ErrorLoadCount m) (ReadsCount m) (ReceivedNatsInvalidations m) (MemoryUsage m).
Definition AutomaticLoadCount_Inc (m : Metrics) : Metrics :=
  mkMetrics (ItemsCount m) (AutomaticLoadCount m + 1) (LazyLoadCount m)
    (ErrorLoadCount m) (ReadsCount m) (ReceivedNatsInvalidations m) (MemoryUsage m).
Definition LazyLoadCount_Inc (m : Metrics) : Metrics :=
  mkMetrics (ItemsCount m) (AutomaticLoadCount m) (LazyLoadCount m + 1)
    (ErrorLoadCount m) (ReadsCount m) (ReceivedNatsInvalidations m) (MemoryUsage m).
Definition ErrorLoadCount_Inc (m : Metrics) : Metrics :=
  mkMetrics (ItemsCount m) (AutomaticLoadCount m) (LazyLoadCount m)
    (ErrorLoadCount m + 1) (ReadsCount m) (ReceivedNatsInvalidations m) (MemoryUsage m).
Definition ReadsCount_Inc (m : Metrics) : Metrics :=
  mkMetrics (ItemsCount m) (AutomaticLoadCount m) (LazyLoadCount m)
    (ErrorLoadCount m) (ReadsCount m + 1) (ReceivedNatsInvalidations m) (MemoryUsage m).

Record Registry : Type := mkRegistry {
  Register : string -> option string
}.

Definition metricsPrefix : string := "cache_".

(** [metrics.New]: the seven collectors are registered in turn and the
    first failure is returned. *)
Definition Metrics_New (name : string) (registry : Registry) : Metrics + string :=
  let reg (suffix : string) := Register registry (metricsPrefix ++ name ++ suffix)%string in
  match reg "_items_count"%string with Some err => inr err | None =>
  match reg "_automatic_load_count"%string with Some err => inr err | None =>
  match reg "_lazy_load_count"%string with Some err => inr err | None =>
  match reg "_error_load_count"%string with Some err => inr err | None =>
  match reg "_reads_count"%string with Some err => inr err | None =>
  match reg "_received_nats_invalidations"%string with Some err => inr err | None =>
  match reg "_memory_usage"%string with Some err => inr err | None =>
  inl (mkMetrics 0 0 0 0 0 0 0)
  end end end end end end end.

Section Cache.

Context {K : Type} `{Countable K} {T : Type}.

(** ** The cached entry (entry.go)

    The three atomics of the struct.  The mutex [mu] serialises loader
    calls between goroutines; a single goroutine locks and unlocks it
    within one operation, so it carries no state from one call of the
    functions below to the next and is left to the interleaving model
    further down. *)

Record cachedEntry : Type := mkEntry {
  nextReload : Z;
  accessed : bool;
  value : option T
}.

(** [&cachedEntry[T]{}] *)
Definition newEntry : cachedEntry := mkEntry 0 false None.

Definition store_value (v : option T) (e : cachedEntry) : cachedEntry :=
  mkEntry (nextReload e) (accessed e) v.
Definition store_accessed (b : bool) (e : cachedEntry) : cachedEntry :=
  mkEntry (nextReload e) b (value e).
Definition store_nextReload (t : Z) (e : cachedEntry) : cachedEntry :=
  mkEntry t (accessed e) (value e).

(** The code after the label [end:] of [set]. *)
Definition set_end (e : cachedEntry) (nowMillis : Z) (timeouts : Timeouts)
    (ttl : Duration) (g : Source) : Duration * cachedEntry * Source :=
  let e := if accessed e then store_accessed false e else e in
  let '(reload, g) :=
    RandomizeDuration (ReloadInterval timeouts) (Randomizer timeouts) g in
  (ttl, store_nextReload (add64 nowMillis (Milliseconds reload)) e, g).

Definition cachedEntry_set (e : cachedEntry) (v : option T) (err : option error)
    (nowMillis : Z) (timeouts : Timeouts) (init : bool) (g : Source)
  : Duration * cachedEntry * Source :=
  let ttl : Duration := -1 in
  match err with
  | Some er =>
      if negb (errors_Is_ErrNotFound er) then
        if init then
          let '(ttl, g) :=
            RandomizeDuration (ErrorTTL timeouts) (Randomizer timeouts) g in
          set_end e nowMillis timeouts ttl g
        else set_end e nowMillis timeouts ttl g
      else
        let '(ttl, g) :=
          RandomizeDuration (NotFoundTTL timeouts) (Randomizer timeouts) g in
        let e := match value e with
                 | Some _ => store_value None e
                 | None => e
                 end in
        set_end e nowMillis timeouts ttl g
  | None =>
      let '(ttl, g) := RandomizeDuration (TTL timeouts) (Randomizer timeouts) g in
      let e := store_value v e in
      set_end e nowMillis timeouts ttl g
  end.

Definition cachedEntry_get (e : cachedEntry) : option T * cachedEntry :=
  let e := if negb (accessed e) then store_accessed true e else e in
  (value e, e).

(** ** The deadline queues (github.com/moderntv/deathrow) *)

(** Modelled from the spec: the queue is an external library whose code
    is not part of the package.  The spec gives its contract: [Push]
    arms or re-arms a key with a duration, superseding what was pending
    for it, and [Drop] removes what is pending.  A [Prison] is the record
    of the calls the cache has made, newest first; [Prison_pending] reads
    from it what is armed for a key. *)
Inductive PrisonCall : Type :=
| Push (k : K) (d : Duration)
| Drop (k : K).

Definition Prison : Type := list PrisonCall.

Definition Prison_Push (k : K) (d : Duration) (p : Prison) : Prison := Push k d :: p.
Definition Prison_Drop (k : K) (p : Prison) : Prison := Drop k :: p.

Fixpoint Prison_pending (p : Prison) (k : K) : option Duration :=
  match p with
  | nil => None
  | Push k' d :: p' => if decide (k' = k) then Some d else Prison_pending p' k
  | Drop k' :: p' => if decide (k' = k) then None else Prison_pending p' k
  end.

(** Every duration a queue has been armed with is non-negative. *)
Definition nonnegative_pushes (p : Prison) : Prop :=
  forall k d, In (Push k d) p -> 0 <= d.

(** ** The cache (cache.go) *)

Record LoadedEntry : Type := mkLoadedEntry {
  le_ID : K;
  le_Value : option T;
  le_Err : option error
}.

(** The struct [Cache], with the two pieces of the environment its
    methods act on: [rand], the state of the global random source, and
    [loaderCalls], the keys the loader has been called with, oldest first.
    The loader is a Go closure and may keep state; it is a function of
    the key and of the calls made before. *)
Record Cache : Type := mkCache {
  name : string;
  timeouts : Timeouts;
  loadOneFunc : K -> list K -> option T * option error;
  automaticReload : AutomaticReload;
  metrics : option Metrics;
  ttlWatcher : Prison;
  reloadWatcher : Prison;
  memSizeValue : Z;
  data : gmap K cachedEntry;
  rand : Source;
  loaderCalls : list K
}.

Definition with_metrics (m : option Metrics) (c : Cache) : Cache :=
  mkCache (name c) (timeouts c) (loadOneFunc c) (automaticReload c) m
    (ttlWatcher c) (reloadWatcher c) (memSizeValue c) (data c) (rand c) (loaderCalls c).
Definition with_ttlWatcher (p : Prison) (c : Cache) : Cache :=
  mkCache (name c) (timeouts c) (loadOneFunc c) (automaticReload c) (metrics c)
    p (reloadWatcher c) (memSizeValue c) (data c) (rand c) (loaderCalls c).
Definition with_reloadWatcher (p : Prison) (c : Cache) : Cache :=
  mkCache (name c) (timeouts c) (loadOneFunc c) (automaticReload c) (metrics c)
    (ttlWatcher c) p (memSizeValue c) (data c) (rand c) (loaderCalls c).
Definition with_data (d : gmap K cachedEntry) (c : Cache) : Cache :=
  mkCache (name c) (timeouts c) (loadOneFunc c) (automaticReload c) (metrics c)
    (ttlWatcher c) (reloadWatcher c) (memSizeValue c) d (rand c) (loaderCalls c).
Definition with_rand (g : Source) (c : Cache) : Cache :=
  mkCache (name c) (timeouts c) (loadOneFunc c) (automaticReload c) (metrics c)
    (ttlWatcher c) (reloadWatcher c) (memSizeValue c) (data c) g (loaderCalls c).
Definition with_loaderCalls (l : list K) (c : Cache) : Cache :=
  mkCache (name c) (timeouts c) (loadOneFunc c) (automaticReload c) (metrics c)
    (ttlWatcher c) (reloadWatcher c) (memSizeValue c) (data c) (rand c) l.

(** [if c.metrics != nil { c.metrics.X.Inc() }] *)
Definition metrics_do (f : Metrics -> Metrics) (c : Cache) : Cache :=
  match metrics c with
  | Some m => with_metrics (Some (f m)) c
  | None => c
  end.

(** [c.loadOneFunc(ID)] *)
Definition call_loadOneFunc (ID : K) (c : Cache) : option T * option error * Cache :=
  let '(v, err) := loadOneFunc c ID (loaderCalls c) in
  (v, err, with_loaderCalls (loaderCalls c ++ ID :: nil) c).

(** [entry.set(...)] on the entry stored under [ID]: the entry is updated
    in place and the random source advances. *)
Definition entry_set_in (ID : K) (entry : cachedEntry) (v : option T)
    (err : option error) (nowMillis : Z) (init : bool) (c : Cache)
  : Duration * cachedEntry * Cache :=
  let '(ttl, entry, g) :=
    cachedEntry_set entry v err nowMillis (timeouts c) init (rand c) in
  (ttl, entry, with_rand g (with_data (<[ID := entry]> (data c)) c)).

(** [return entry.get()] on the entry stored under [ID]. *)
Definition entry_get_in (ID : K) (entry : cachedEntry) (c : Cache) : option T * Cache :=
  let '(v, entry) := cachedEntry_get entry in
  (v, with_data (<[ID := entry]> (data c)) c).

Definition setEntryWatchers (entryID : K) (ttl : Duration) (entry : cachedEntry)
    (nowMillis : Z) (c : Cache) : Cache :=
  let c := if ttl >=? 0
           then with_ttlWatcher (Prison_Push entryID ttl (ttlWatcher c)) c
           else c in
  if decide (automaticReload c = AutomaticReloadDisabled) then c
  else
    with_reloadWatcher
      (Prison_Push entryID
         (mul64 (sub64 (nextReload entry) nowMillis) Millisecond)
         (reloadWatcher c)) c.

(** The counters bumped after a load triggered by [Get]. *)
Definition count_lazy_load (err : option error) (c : Cache) : Cache :=
  match metrics c with
  | Some _ =>
      let c := metrics_do LazyLoadCount_Inc c in
      if is_generic_error err then metrics_do ErrorLoadCount_Inc c else c
  | None => c
  end.

Definition Get (ID : K) (nowMillis : Z) (c : Cache) : option T * Cache :=
  let found := data c !! ID in
  let c := metrics_do ReadsCount_Inc c in
  match found with
  | Some entry =>
      if nowMillis <? nextReload entry then entry_get_in ID entry c
      else
        (* entry.mu.Lock(); the re-check reads the same field again *)
        if nowMillis <? nextReload entry then entry_get_in ID entry c
        else
          let '(loadedValue, err, c) := call_loadOneFunc ID c in
          let '(ttl, entry, c) := entry_set_in ID entry loadedValue err nowMillis false c in
          let c := setEntryWatchers ID ttl entry nowMillis c in
          let c := count_lazy_load err c in
          entry_get_in ID entry c
  | None =>
      let entry := newEntry in
      let c := with_data (<[ID := entry]> (data c)) c in
      let '(loadedValue, err, c) := call_loadOneFunc ID c in
      let '(ttl, entry, c) := entry_set_in ID entry loadedValue err nowMillis true c in
      let c := setEntryWatchers ID ttl entry nowMillis c in
      let c := count_lazy_load err c in
      entry_get_in ID entry c
  end.

Definition Remove (ID : K) (c : Cache) : Cache :=
  match data c !! ID with
  | None => c
  | Some _ =>
      let c := with_data (delete ID (data c)) c in
      let c := with_ttlWatcher (Prison_Drop ID (ttlWatcher c)) c in
      let c := with_reloadWatcher (Prison_Drop ID (reloadWatcher c)) c in
      metrics_do ItemsCount_Dec c
  end.

Definition Invalidate (ID : K) (c : Cache) : Cache :=
  match data c !! ID with
  | None => c
  | Some entry =>
      let c := with_data (<[ID := store_nextReload 0 entry]> (data c)) c in
      if decide (automaticReload c <> AutomaticReloadDisabled)
      then with_reloadWatcher (Prison_Push ID 0 (reloadWatcher c)) c
      else c
  end.

(** addLoadedEntry adds already loaded entry to cache (if it makes sense) *)
Definition addLoadedEntry (loadedEntry : LoadedEntry) (nowMillis : Z) (c : Cache) : Cache :=
  let entry := newEntry in
  let '(ttl, entry, g) :=
    cachedEntry_set entry (le_Value loadedEntry) (le_Err loadedEntry)
      nowMillis (timeouts c) true (rand c) in
  let c := with_rand g c in
  let ID := le_ID loadedEntry in
  let exists_ := bool_decide (is_Some (data c !! ID)) in
  if exists_ && is_generic_error (le_Err loadedEntry) then
    metrics_do ErrorLoadCount_Inc c
  else
    let c := with_data (<[ID := entry]> (data c)) c in
    let c := setEntryWatchers ID ttl entry nowMillis c in
    metrics_do ItemsCount_Inc c.

(** [startPreloading]: the items read from the channel until it is
    closed, each with the time at which it was read. *)
Definition startPreloading (preloadChan : list (LoadedEntry * Z)) (c : Cache) : Cache :=
  fold_left (fun c item => addLoadedEntry (fst item) (snd item) c) preloadChan c.

(** One turn of the loop of [startTTLWatcher], for the key that fired. *)
Definition ttlWatcher_fired (ID : K) (c : Cache) : Cache :=
  match data c !! ID with
  | None => c
  | Some _ =>
      let c := with_data (delete ID (data c)) c in
      let c := with_reloadWatcher (Prison_Drop ID (reloadWatcher c)) c in
      metrics_do ItemsCount_Dec c
  end.

(** The counters bumped after a load made by the reload watcher. *)
Definition count_automatic_load (err : option error) (c : Cache) : Cache :=
  match metrics c with
  | Some _ =>
      let c := metrics_do AutomaticLoadCount_Inc c in
      if is_generic_error err then metrics_do ErrorLoadCount_Inc c else c
  | None => c
  end.

(** The part of a turn of [startReloadWatcher] under the entry's lock
    and after it: load, capture [accessed], [set], override, re-arm. *)
Definition reloadWatcher_reload (id : K) (entry : cachedEntry) (nowMillis : Z)
    (c : Cache) : Cache :=
  let '(loadedValue, err, c) := call_loadOneFunc id c in
  let accessed_ := accessed entry in
  let '(ttl, entry, c) := entry_set_in id entry loadedValue err nowMillis false c in
  let ttl := if negb accessed_ then -1 else ttl in
  let c := setEntryWatchers id ttl entry nowMillis c in
  count_automatic_load err c.

(** One turn of the loop of [startReloadWatcher], for the key that fired. *)
Definition reloadWatcher_fired (id : K) (nowMillis : Z) (c : Cache) : Cache :=
  match data c !! id with
  | None => c
  | Some entry =>
      if bool_decide (automaticReload c = AutomaticReloadAccessedEntries)
         && negb (accessed entry)
      then c
      else reloadWatcher_reload id entry nowMillis c
  end.

(** ** Memory size (internal/memsize, updateMemsize)

    The size of a value comes from the value's own [MemSize] method when
    its type has one (the interface [Meassurable]) and from the external
    estimator otherwise.  Either may panic, which is [None] here.  A
    [Sizer] holds the two: the method, if the type has it, and the
    external estimator, whose result is an [int]. *)

Record Sizer : Type := mkSizer {
  MemSize : option (T -> option Z);
  monkeysize_Of : T -> option Z
}.

(** Reduction of an integer to the uint64 range. *)
Definition wrapU64 (z : Z) : Z := z mod 2 ^ 64.

(** [memsize.Entry] *)
Definition memsize_Entry (sizer : Sizer) (entry : T) : option Z :=
  match MemSize sizer with
  | None => wrapU64 <$> monkeysize_Of sizer entry
  | Some m => m entry
  end.

(** [memsize.Entries]: the loop over the values of a map, from the
    running total [totalSize]. *)
Fixpoint sum_Entry (sizer : Sizer) (entries : list T) (totalSize : Z) : option Z :=
  match entries with
  | nil => Some totalSize
  | entry :: rest =>
      n ← memsize_Entry sizer entry;
      sum_Entry sizer rest (wrapU64 (totalSize + n))
  end.

Definition memsize_Entries (sizer : Sizer) (entries : gmap K T) : option Z :=
  sum_Entry sizer (snd <$> map_to_list entries) 0.

(** The second loop of [updateMemsize]: entries without a value are
    skipped. *)
Fixpoint sum_entries (sizer : Sizer) (entries : list cachedEntry) (size : Z)
  : option Z :=
  match entries with
  | nil => Some size
  | entry :: rest =>
      match value entry with
      | None => sum_entries sizer rest size
      | Some v =>
          n ← memsize_Entry sizer v;
          sum_entries sizer rest (wrapU64 (size + n))
      end
  end.

(** [float64(size)] as the integer the float stands for. *)
Definition float64_of_uint64 (size : Z) : Z :=
  match binary_normalize prec emax size 0 false with
  | S754_finite s m e =>
      let mag := if 0 <=? e then Z.shiftl (Z.pos m) e
                 else Z.shiftr (Z.pos m) (- e) in
      if s then - mag else mag
  | _ => 0
  end.

Definition MemoryUsage_Set (x : Z) (m : Metrics) : Metrics :=
  mkMetrics (ItemsCount m) (AutomaticLoadCount m) (LazyLoadCount m)
    (ErrorLoadCount m) (ReadsCount m) (ReceivedNatsInvalidations m) x.

Definition with_memSizeValue (size : Z) (c : Cache) : Cache :=
  mkCache (name c) (timeouts c) (loadOneFunc c) (automaticReload c) (metrics c)
    (ttlWatcher c) (reloadWatcher c) size (data c) (rand c) (loaderCalls c).

(** [updateMemsize].  The entries are listed in the order in which the
    map is ranged over, which Go leaves open; [map_to_list] is one such
    order.  A panic while sizing is caught by the deferred [recover]
    before anything has been stored.  Without a metrics sink the last
    line panics after [memSizeValue] has been stored, and is caught as
    well. *)
Definition updateMemsize (sizer : Sizer) (c : Cache) : Cache :=
  let entries := snd <$> map_to_list (data c) in
  match sum_entries sizer entries 0 with
  | None => c
  | Some size =>
      let c := with_memSizeValue size c in
      metrics_do (MemoryUsage_Set (float64_of_uint64 size)) c
  end.

(** ** Construction (params.go, NewCache) *)

Record Params : Type := mkParams {
  p_Context : option unit;
  p_MetricsRegistry : option Registry;
  p_Name : string;
  p_LoadOneFunc : option (K -> list K -> option T * option error);
  p_Timeouts : Timeouts;
  p_PreloadChan : option (list (LoadedEntry * Z));
  p_AutomaticReload : AutomaticReload
}.

Definition Params_check (p : Params) : option string :=
  match p_Context p with
  | None => Some "context must be set"%string
  | Some _ =>
      if String.eqb (p_Name p) ""%string then Some "name must be set"%string
      else
        match p_LoadOneFunc p with
        | None => Some "LoadOneFunc must be provided"%string
        | Some _ => Timeouts_check (p_Timeouts p)
        end
  end.

(** [NewCache]: the struct it builds, or the error it returns.  The
    background goroutines it starts are the loops whose turns are the
    functions above; [g] is the state of the random source at the time. *)
Definition NewCache (params : Params) (g : Source) : Cache + string :=
  match Params_check params with
  | Some err => inr err
  | None =>
      let made :=
        match p_MetricsRegistry params with
        | Some registry =>
            match Metrics_New (p_Name params) registry with
            | inl m => inl (Some m)
            | inr err => inr err
            end
        | None => inl None
        end in
      match made, p_LoadOneFunc params with
      | inr err, _ => inr err
      | inl metrics, Some loader =>
          inl (mkCache (p_Name params) (p_Timeouts params) loader
                 (p_AutomaticReload params) metrics nil nil 0 ∅ g nil)
      | inl _, None => inr "LoadOneFunc must be provided"%string
      end
  end.

End Cache.

Arguments cachedEntry T : clear implicits.
Arguments PrisonCall K : clear implicits.
Arguments Prison K : clear implicits.
Arguments LoadedEntry K T : clear implicits.
Arguments Cache K {_ _} T.
Arguments Params K T : clear implicits.
Arguments Sizer T : clear implicits.

(** ** Goroutines

    The functions above are what one goroutine does when nothing else
    runs in between.  The model below follows goroutines through [Get]
    and through a turn of the reload watcher, cut at the points where
    they meet: the lookup in the index, the insertion in the index,
    [entry.mu.Lock()], and the start and the return of the loader call.
    The loads and stores of an entry's atomics between two such points
    are taken together with the point before them; [Unlock] is taken with
    the [set] that precedes it.  An entry is now an address (a [handle])
    in a store of entries, so that the index, a goroutine that looked a
    key up earlier and a goroutine that has just built an entry can each
    hold a different entry for the same key.  The result of a loader call
    is given by the environment when the call returns.  The deadline
    queues and the counters take no part in the locking and are left
    out. *)

Module Interleaving.

Definition handle : Type := nat.
Definition tid : Type := nat.

Section Model.

Context {K : Type} `{Countable K} {T : Type}.

(** Where a goroutine stands (line numbers of cache.go). *)
Inductive pc : Type :=
| Idle
| GetFound (ID : K) (nowMillis : Z) (entry : handle)     (* 103: exists *)
| GetLock (ID : K) (nowMillis : Z) (entry : handle)      (* 110: before entry.mu.Lock() *)
| GetLocked (ID : K) (nowMillis : Z) (entry : handle)    (* 113: lock held, re-check *)
| GetMiss (ID : K) (nowMillis : Z)                       (* 139: not found in cache *)
| GetInsert (ID : K) (nowMillis : Z) (entry : handle)    (* 142: own entry locked *)
| GetLoading (ID : K) (nowMillis : Z) (entry : handle) (init : bool)
                                                         (* 120, 146: in loadOneFunc *)
| ReloadLock (id : K) (entry : handle)                   (* 317: before entry.mu.Lock() *)
| ReloadLoading (id : K) (nowMillis : Z) (entry : handle). (* 320: in loadOneFunc *)

Record State : Type := mkState {
  st_timeouts : Timeouts;
  st_automaticReload : AutomaticReload;
  index : gmap K handle;
  store : gmap handle (cachedEntry T);
  allocated : nat;
  holder : gmap handle tid;
  threads : gmap tid pc;
  st_rand : Source
}.

Definition initial (t : Timeouts) (mode : AutomaticReload) (g : Source) : State :=
  mkState t mode ∅ ∅ 0 ∅ ∅ g.

Definition pc_of (s : State) (t : tid) : pc := default Idle (threads s !! t).

Definition goto (t : tid) (p : pc) (s : State) : State :=
  mkState (st_timeouts s) (st_automaticReload s) (index s) (store s)
    (allocated s) (holder s) (<[t := p]> (threads s)) (st_rand s).
Definition write (h : handle) (e : cachedEntry T) (s : State) : State :=
  mkState (st_timeouts s) (st_automaticReload s) (index s) (<[h := e]> (store s))
    (allocated s) (holder s) (threads s) (st_rand s).
Definition set_index (i : gmap K handle) (s : State) : State :=
  mkState (st_timeouts s) (st_automaticReload s) i (store s)
    (allocated s) (holder s) (threads s) (st_rand s).
Definition set_rand (g : Source) (s : State) : State :=
  mkState (st_timeouts s) (st_automaticReload s) (index s) (store s)
    (allocated s) (holder s) (threads s) g.
(** [entry.mu.Lock()] once the mutex is free, and [entry.mu.Unlock()]. *)
Definition lock (h : handle) (t : tid) (s : State) : State :=
  mkState (st_timeouts s) (st_automaticReload s) (index s) (store s)
    (allocated s) (<[h := t]> (holder s)) (threads s) (st_rand s).
Definition unlock (h : handle) (s : State) : State :=
  mkState (st_timeouts s) (st_automaticReload s) (index s) (store s)
    (allocated s) (delete h (holder s)) (threads s) (st_rand s).
(** [&cachedEntry[T]{}]: a new address holding the zero entry. *)
Definition alloc (s : State) : handle * State :=
  (allocated s,
   mkState (st_timeouts s) (st_automaticReload s) (index s)
     (<[allocated s := newEntry]> (store s))
     (S (allocated s)) (holder s) (threads s) (st_rand s)).

(** [entry.get()] and [entry.set(...)] on the entry at an address. *)
Definition get_at (h : handle) (s : State) : option State :=
  e ← store s !! h;
  Some (write h (snd (cachedEntry_get e)) s).

Definition set_at (h : handle) (v : option T) (err : option error)
    (nowMillis : Z) (init : bool) (s : State) : option State :=
  e ← store s !! h;
  let '(_, e, g) := cachedEntry_set e v err nowMillis (st_timeouts s) init (st_rand s) in
  Some (set_rand g (write h e s)).

(** What the scheduler and the environment choose for a goroutine. *)
Inductive action : Type :=
| CallGet (ID : K) (nowMillis : Z)
| CallRemove (ID : K)
| CallInvalidate (ID : K)
| Preloaded (loadedEntry : LoadedEntry K T) (nowMillis : Z)
| TTLFired (ID : K)
| ReloadFired (id : K)
| Advance (nowMillis : Z)
| LoaderReturns (v : option T) (err : option error).

(** One atomic action of goroutine [t]; [None] when the action does not
    apply where the goroutine stands, or when it waits for a mutex that
    is held. *)
Definition step (t : tid) (a : action) (s : State) : option State :=
  match pc_of s t, a with
  (* Get, 92-103: look the key up *)
  | Idle, CallGet ID nowMillis =>
      match index s !! ID with
      | Some h => Some (goto t (GetFound ID nowMillis h) s)
      | None => Some (goto t (GetMiss ID nowMillis) s)
      end
  (* Get, 105-107: fresh entries are returned without the lock *)
  | GetFound ID nowMillis h, Advance _ =>
      e ← store s !! h;
      if nowMillis <? nextReload e then goto t Idle <$> get_at h s
      else Some (goto t (GetLock ID nowMillis h) s)
  (* Get, 110: entry.mu.Lock() *)
  | GetLock ID nowMillis h, Advance _ =>
      match holder s !! h with
      | Some _ => None
      | None => Some (goto t (GetLocked ID nowMillis h) (lock h t s))
      end
  (* Get, 113-120: re-check, then call the loader *)
  | GetLocked ID nowMillis h, Advance _ =>
      e ← store s !! h;
      if nowMillis <? nextReload e then goto t Idle <$> get_at h (unlock h s)
      else Some (goto t (GetLoading ID nowMillis h false) s)
  (* Get, 139-140: a new entry, locked by its maker *)
  | GetMiss ID nowMillis, Advance _ =>
      let '(h, s) := alloc s in
      Some (goto t (GetInsert ID nowMillis h) (lock h t s))
  (* Get, 142-146: publish the entry, then call the loader *)
  | GetInsert ID nowMillis h, Advance _ =>
      Some (goto t (GetLoading ID nowMillis h true)
              (set_index (<[ID := h]> (index s)) s))
  (* Get, 121-135 and 147-161: the loader has returned *)
  | GetLoading ID nowMillis h init, LoaderReturns v err =>
      s ← set_at h v err nowMillis init s;
      goto t Idle <$> get_at h (unlock h s)
  (* reload watcher, 301-315 *)
  | Idle, ReloadFired id =>
      if decide (st_automaticReload s = AutomaticReloadDisabled) then None
      else
        match index s !! id with
        | None => Some s
        | Some h =>
            e ← store s !! h;
            if bool_decide (st_automaticReload s = AutomaticReloadAccessedEntries)
               && negb (accessed e)
            then Some s
            else Some (goto t (ReloadLock id h) s)
        end
  (* reload watcher, 317-320: lock, read the clock, call the loader *)
  | ReloadLock id h, Advance nowMillis =>
      match holder s !! h with
      | Some _ => None
      | None => Some (goto t (ReloadLoading id nowMillis h) (lock h t s))
      end
  (* reload watcher, 321-337: the loader has returned *)
  | ReloadLoading id nowMillis h, LoaderReturns v err =>
      s ← set_at h v err nowMillis false s;
      Some (goto t Idle (unlock h s))
  (* Remove, and a turn of the TTL watcher *)
  | Idle, CallRemove ID => Some (set_index (delete ID (index s)) s)
  | Idle, TTLFired ID => Some (set_index (delete ID (index s)) s)
  (* Invalidate *)
  | Idle, CallInvalidate ID =>
      match index s !! ID with
      | None => Some s
      | Some h => e ← store s !! h; Some (write h (store_nextReload 0 e) s)
      end
  (* addLoadedEntry *)
  | Idle, Preloaded loadedEntry nowMillis =>
      let '(h, s) := alloc s in
      s ← set_at h (le_Value loadedEntry) (le_Err loadedEntry) nowMillis true s;
      if bool_decide (is_Some (index s !! le_ID loadedEntry))
         && is_generic_error (le_Err loadedEntry)
      then Some s
      else Some (set_index (<[le_ID loadedEntry := h]> (index s)) s)
  | _, _ => None
  end.

(** A schedule is run from left to right. *)
Fixpoint run (schedule : list (tid * action)) (s : State) : option State :=
  match schedule with
  | nil => Some s
  | (t, a) :: rest => s ← step t a s; run rest s
  end.

(** The key and the entry of the loader call a goroutine is inside of. *)
Definition loading (p : pc) : option (K * handle) :=
  match p with
  | GetLoading ID _ h _ => Some (ID, h)
  | ReloadLoading id _ h => Some (id, h)
  | _ => None
  end.

(** The entry whose mutex a goroutine holds. *)
Definition locked_by (p : pc) : option handle :=
  match p with
  | GetLocked _ _ h | GetInsert _ _ h | GetLoading _ _ h _
  | ReloadLoading _ _ h => Some h
  | _ => None
  end.

(** The entry a goroutine has in hand. *)
Definition handle_of (p : pc) : option handle :=
  match p with
  | GetFound _ _ h | GetLock _ _ h | GetLocked _ _ h | GetInsert _ _ h
  | GetLoading _ _ h _ | ReloadLock _ h | ReloadLoading _ _ h => Some h
  | Idle | GetMiss _ _ => None
  end.

(** What holds in every state a schedule can reach, in terms of the
    index, the goroutines, the holders and the allocation mark: a
    goroutine that stands where a mutex is held is its holder on record,
    and every entry that has a holder, is in a goroutine's hand or is in
    the index has been allocated. *)
Definition locks_consistent (ix : gmap K handle) (th : gmap tid pc)
    (ho : gmap handle tid) (al : nat) : Prop :=
  (forall t h, locked_by (default Idle (th !! t)) = Some h -> ho !! h = Some t) /\
  (forall h t, ho !! h = Some t -> (h < al)%nat) /\
  (forall t h, handle_of (default Idle (th !! t)) = Some h -> (h < al)%nat) /\
  (forall k h, ix !! k = Some h -> (h < al)%nat).

Definition lock_invariant (s : State) : Prop :=
  locks_consistent (index s) (threads s) (holder s) (allocated s).

(** The specification's invariant, read on a state: two loader calls in
    flight for the same key belong to the same goroutine. *)
Definition one_loader_per_key (s : State) : Prop :=
  forall t1 t2 k h1 h2,
    loading (pc_of s t1) = Some (k, h1) ->
    loading (pc_of s t2) = Some (k, h2) ->
    t1 = t2.

End Model.

Arguments pc K : clear implicits.
Arguments State K {_ _} T.
Arguments action K T : clear implicits.

End Interleaving.

(** ** The validity of a [Timeouts] record in the words of the
    specification: TTL > 0, 0 < ReloadInterval <= TTL, Randomizer in
    [0, 1].  [Timeouts_check] above is the code; this is what it is
    compared with. *)
Definition Timeouts_valid_spec (t : Timeouts) : Prop :=
  0 < TTL t /\
  (0 < ReloadInterval t /\ ReloadInterval t <= TTL t) /\
  (PrimFloat.leb 0%float (Randomizer t) = true /\
   PrimFloat.leb (Randomizer t) 1%float = true).

(** ** Concrete caches, after the package's tests *)

Module Scenario.

(** A random source; with [Randomizer] 0 it is never consulted. *)
Definition source : Source := mkSource (fun _ => 0.5%float) (fun _ => 1) 0.

(** [entryTestTimeouts] *)
Definition entryTestTimeouts : Timeouts :=
  mkTimeouts (8 * Second) (5 * Second) (1 * Second) (3 * Second) 0%float 0.

(** [cacheTestTimeouts] *)
Definition cacheTestTimeouts : Timeouts :=
  mkTimeouts (7 * Second) (5 * Second) (1 * Second) (3 * Second) 0%float 0.

(** The timeouts of [testCacheErrorEntryReload]: NotFoundTTL and ErrorTTL
    are 0. *)
Definition zeroTTLTimeouts : Timeouts :=
  mkTimeouts (10 * Second) 0 0 (1 * Second) 0%float 0.

(** Timeouts with a negative TTL and a ReloadInterval below it, and
    timeouts with a ReloadInterval of 0. *)
Definition negativeTimeouts : Timeouts :=
  mkTimeouts (- (1 * Second)) 0 0 (- (2 * Second)) 0%float 0.

Definition zeroReloadTimeouts : Timeouts :=
  mkTimeouts (10 * Second) 0 0 0 0%float 0.

(** The loader of [testCacheEntriesExpiration]. *)
Definition loader (ID : Z) (calls : list Z) : option string * option error :=
  if ID =? 0 then (None, Some (errorString "adhoc error"))
  else if ID =? 1 then (None, Some ErrNotFound)
  else (Some "value"%string, None).

Definition params (t : Timeouts) (mode : AutomaticReload) : Params Z string :=
  mkParams (Some tt) None "test_cache1"%string (Some loader) t None mode.

(** What [NewCache] builds from [params]. *)
Definition cache (t : Timeouts) (mode : AutomaticReload) : Cache Z string :=
  mkCache "test_cache1"%string t loader mode None nil nil 0 ∅ source nil.

(** The same with a metrics sink whose counters are all 0. *)
Definition cache_with_metrics (t : Timeouts) (mode : AutomaticReload) : Cache Z string :=
  mkCache "test_cache1"%string t loader mode (Some (mkMetrics 0 0 0 0 0 0 0))
    nil nil 0 ∅ source nil.

Definition nowMillis : Z := 1700000000.

(** An entry loaded with success half a second ago and read since
    (the setup of [TestEntryReloadAfterSuccess]). *)
Definition loadedEntry : cachedEntry string :=
  mkEntry (nowMillis - 500 + 3000) true (Some "value0"%string).

(** Key 2 is read once, then the reload watcher fires for it three
    seconds later (mode AllEntries or AccessedEntries). *)
Definition read_once (mode : AutomaticReload) : Cache Z string :=
  snd (Get 2 nowMillis (cache cacheTestTimeouts mode)).

Definition reloaded_once (mode : AutomaticReload) : Cache Z string :=
  reloadWatcher_fired 2 (nowMillis + 3000) (read_once mode).

(** Preloaded items: a value for key 2, and an error for key 2. *)
Definition preloadValue : LoadedEntry Z string :=
  mkLoadedEntry 2 (Some "value"%string) None.

Definition preloadError : LoadedEntry Z string :=
  mkLoadedEntry 2 None (Some (errorString "adhoc error")).

Definition preloaded_once : Cache Z string :=
  addLoadedEntry preloadValue nowMillis
    (cache_with_metrics cacheTestTimeouts AutomaticReloadDisabled).

(** Two goroutines call [Get] for key 7 on an empty cache; both look the
    key up before either has published its entry. *)
Definition two_misses : list (Interleaving.tid * Interleaving.action Z string) :=
  (0%nat, Interleaving.CallGet 7 nowMillis) ::
  (1%nat, Interleaving.CallGet 7 nowMillis) ::
  (0%nat, Interleaving.Advance nowMillis) ::
  (0%nat, Interleaving.Advance nowMillis) ::
  (1%nat, Interleaving.Advance nowMillis) ::
  (1%nat, Interleaving.Advance nowMillis) :: nil.

(** One goroutine misses on key 7 and is inside the loader. *)
Definition one_miss : list (Interleaving.tid * Interleaving.action Z string) :=
  (0%nat, Interleaving.CallGet 7 nowMillis) ::
  (0%nat, Interleaving.Advance nowMillis) ::
  (0%nat, Interleaving.Advance nowMillis) :: nil.

Definition empty_state : Interleaving.State Z string :=
  Interleaving.initial cacheTestTimeouts AutomaticReloadDisabled source.

(** Key 0, for which the loader fails, preloaded with a value. *)
Definition preloadOld : LoadedEntry Z string :=
  mkLoadedEntry 0 (Some "old"%string) None.

Definition preloaded_old : Cache Z string :=
  addLoadedEntry preloadOld nowMillis
    (cache_with_metrics cacheTestTimeouts AutomaticReloadDisabled).

(** Timeouts with a reload interval of half a millisecond. *)
Definition subMillisecondTimeouts : Timeouts :=
  mkTimeouts (7 * Second) (5 * Second) (1 * Second) 500000 0%float 0.

(** Keys 0, 1 and 2 read once each: an error, a NotFound and a value. *)
Definition three_keys : Cache Z string :=
  snd (Get 2 nowMillis
         (snd (Get 1 nowMillis
                 (snd (Get 0 nowMillis
                         (cache_with_metrics cacheTestTimeouts
                            AutomaticReloadDisabled)))))).

(** A value sized by its own method (the length of the string), and an
    estimator that panics on everything. *)
Definition lengthSizer : Sizer string :=
  mkSizer (Some (fun v => Some (Z.of_nat (String.length v)))) (fun _ => None).

Definition panickingSizer : Sizer string :=
  mkSizer None (fun _ => None).

(** Key 2 read once on the cache with a metrics sink. *)
Definition read_with_metrics : Cache Z string :=
  snd (Get 2 nowMillis (cache_with_metrics cacheTestTimeouts AutomaticReloadDisabled)).

(** The state a schedule leads to. *)
Definition state_after (schedule : list (Interleaving.tid * Interleaving.action Z string))
    (s : Interleaving.State Z string) : Interleaving.State Z string :=
  default s (Interleaving.run schedule s).

(** Goroutine 0 is inside the loader for key 7 after a miss; goroutine 1
    has found the entry, seen it due, and stands before [Lock]. *)
Definition waiting : Interleaving.State Z string :=
  state_after
    (one_miss ++
     (1%nat, Interleaving.CallGet 7 nowMillis) ::
     (1%nat, Interleaving.Advance nowMillis) :: nil)
    empty_state.

(** The same, with the clock of goroutine 1 three seconds later, which
    is where the reload interval ends. *)
Definition waiting_late : Interleaving.State Z string :=
  state_after
    (one_miss ++
     (1%nat, Interleaving.CallGet 7 (nowMillis + 3000)) ::
     (1%nat, Interleaving.Advance nowMillis) :: nil)
    empty_state.

(** Key 7 has been loaded by goroutine 0; the reload watcher, goroutine
    2, holds the entry's mutex and is inside the loader. *)
Definition reloading : Interleaving.State Z string :=
  state_after
    (one_miss ++
     (0%nat, Interleaving.LoaderReturns (Some "value"%string) None) ::
     (2%nat, Interleaving.ReloadFired 7) ::
     (2%nat, Interleaving.Advance (nowMillis + 1)) :: nil)
    (Interleaving.initial cacheTestTimeouts AutomaticReloadAllEntries source).

End Scenario.

(** * Properties *)

(** ** The entry *)

Section EntryProperties.

Context {T : Type}.
Implicit Types (e : cachedEntry T) (v : option T) (g : Source).

Lemma wrap64_in_range (z : Z) : in_int64 z -> wrap64 z = z.
Proof.
  unfold in_int64, min_int64, max_int64, wrap64. intros Hz.
  rewrite Z.mod_small; lia.
Qed.

(** Without a randomizer a duration is returned as it is and the random
    source is not consulted. *)
Lemma RandomizeDuration_zero d g : RandomizeDuration d 0%float g = (d, g).
Proof. reflexivity. Qed.

Lemma RandomizeDuration_eq d randomizer g :
  RandomizeDuration d randomizer g =
  (jitter d randomizer g, jitter_next d randomizer g).
Proof. unfold jitter, jitter_next. destruct (RandomizeDuration d randomizer g); reflexivity. Qed.

(** What the tail of [set] leaves behind, whatever the branch taken
    before it. *)
Lemma set_end_eq e nowMillis timeouts ttl g :
  set_end e nowMillis timeouts ttl g =
  (ttl,
   mkEntry
     (add64 nowMillis
        (Milliseconds (jitter (ReloadInterval timeouts) (Randomizer timeouts) g)))
     false (value e),
   jitter_next (ReloadInterval timeouts) (Randomizer timeouts) g).
Proof.
  unfold set_end. rewrite RandomizeDuration_eq.
  destruct e as [nr [|] val]; reflexivity.
Qed.

Lemma errors_Is_cause_chain (er : error) :
  errors_Is_ErrNotFound er = true <-> In ErrNotFound (cause_chain er).
Proof.
  induction er as [| s | msg inner IH]; simpl.
  - split; auto.
  - split; [discriminate | intros [Hs | []]; discriminate].
  - rewrite IH. split; [auto | intros [Hs | Hin]; [discriminate | assumption]].
Qed.

(** C1. [set] without an error stores the given value pointer over
    whatever the entry held, returns the jittered TTL, and leaves
    [accessed] false and [nextReload] at [nowMillis] plus the jittered
    reload interval in milliseconds; this for either value of the
    first-load flag and any prior entry.  The second jitter draws from the
    random source as the first one left it. *)
Theorem set_success e v nowMillis timeouts init g :
  let r := Randomizer timeouts in
  let g1 := jitter_next (TTL timeouts) r g in
  cachedEntry_set e v None nowMillis timeouts init g =
  (jitter (TTL timeouts) r g,
   mkEntry (add64 nowMillis (Milliseconds (jitter (ReloadInterval timeouts) r g1)))
     false v,
   jitter_next (ReloadInterval timeouts) r g1).
Proof.
  intros r g1. unfold cachedEntry_set.
  rewrite RandomizeDuration_eq, set_end_eq. reflexivity.
Qed.

(** C2. [set] with an error whose cause chain contains the sentinel
    clears the stored value, so that [get] returns nil afterwards, and
    returns the jittered NotFoundTTL, on first load and on reload
    alike. *)
Theorem set_not_found e v er nowMillis timeouts init g :
  In ErrNotFound (cause_chain er) ->
  let r := Randomizer timeouts in
  let g1 := jitter_next (NotFoundTTL timeouts) r g in
  let e' := mkEntry
              (add64 nowMillis (Milliseconds (jitter (ReloadInterval timeouts) r g1)))
              false None in
  cachedEntry_set e v (Some er) nowMillis timeouts init g =
    (jitter (NotFoundTTL timeouts) r g, e',
     jitter_next (ReloadInterval timeouts) r g1)
  /\ fst (cachedEntry_get e') = None.
Proof.
  intros Hin r g1 e'. split; [| reflexivity].
  apply errors_Is_cause_chain in Hin.
  unfold cachedEntry_set. rewrite Hin. simpl.
  rewrite RandomizeDuration_eq.
  destruct (value e) eqn:Hv; rewrite set_end_eq; simpl; rewrite ?Hv; reflexivity.
Qed.

(** C3. [set] with an error that is not NotFound leaves the stored value
    pointer as it was; [accessed] and [nextReload] are updated as always;
    the result is the jittered ErrorTTL on first load and -1 on reload. *)
Theorem set_generic_error e v er nowMillis timeouts (init : bool) g :
  ~ In ErrNotFound (cause_chain er) ->
  let r := Randomizer timeouts in
  let g1 := if init then jitter_next (ErrorTTL timeouts) r g else g in
  cachedEntry_set e v (Some er) nowMillis timeouts init g =
  ((if init then jitter (ErrorTTL timeouts) r g else -1),
   mkEntry (add64 nowMillis (Milliseconds (jitter (ReloadInterval timeouts) r g1)))
     false (value e),
   jitter_next (ReloadInterval timeouts) r g1).
Proof.
  intros Hnot r g1.
  assert (Hgen : errors_Is_ErrNotFound er = false).
  { destruct (errors_Is_ErrNotFound er) eqn:Hb; [| reflexivity].
    exfalso. apply Hnot, errors_Is_cause_chain, Hb. }
  unfold cachedEntry_set. rewrite Hgen. simpl.
  unfold g1. destruct init.
  - rewrite RandomizeDuration_eq, set_end_eq. reflexivity.
  - rewrite set_end_eq. reflexivity.
Qed.

End EntryProperties.

(** ** The cache *)

Section CacheProperties.

Context {K : Type} `{Countable K} {T : Type}.
Implicit Types (c : Cache K T) (entry : cachedEntry T) (k ID : K).

(** Unfolds the field updates of the cache record. *)
Ltac cache_simpl :=
  unfold metrics_do, with_metrics, with_ttlWatcher, with_reloadWatcher,
    with_data, with_rand, with_loaderCalls in *; simpl in *.

Lemma is_generic_error_spec (err : option error) :
  is_generic_error err = true <->
  exists er, err = Some er /\ ~ In ErrNotFound (cause_chain er).
Proof.
  destruct err as [er |]; simpl.
  - rewrite negb_true_iff. split.
    + intros Hb. exists er. split; [reflexivity |].
      intros Hin. apply errors_Is_cause_chain in Hin. congruence.
    + intros (er' & [= <-] & Hnot).
      destruct (errors_Is_ErrNotFound er) eqn:Hb; [| reflexivity].
      exfalso. apply Hnot, errors_Is_cause_chain, Hb.
  - split; [discriminate | intros (er & Heq & _); discriminate].
Qed.

(** [setEntryWatchers] field by field. *)
Lemma setEntryWatchers_ttlWatcher k ttl entry nowMillis c :
  ttlWatcher (setEntryWatchers k ttl entry nowMillis c) =
  if ttl >=? 0 then Push k ttl :: ttlWatcher c else ttlWatcher c.
Proof.
  unfold setEntryWatchers.
  destruct (ttl >=? 0); cache_simpl; destruct (decide _); reflexivity.
Qed.

Lemma setEntryWatchers_reloadWatcher k ttl entry nowMillis c :
  reloadWatcher (setEntryWatchers k ttl entry nowMillis c) =
  if decide (automaticReload c = AutomaticReloadDisabled) then reloadWatcher c
  else Push k (mul64 (sub64 (nextReload entry) nowMillis) Millisecond)
         :: reloadWatcher c.
Proof.
  unfold setEntryWatchers.
  destruct (ttl >=? 0); cache_simpl; destruct (decide _); reflexivity.
Qed.

Lemma setEntryWatchers_rest k ttl entry nowMillis c :
  let c' := setEntryWatchers k ttl entry nowMillis c in
  data c' = data c /\ metrics c' = metrics c /\ rand c' = rand c /\
  loaderCalls c' = loaderCalls c /\ automaticReload c' = automaticReload c /\
  timeouts c' = timeouts c.
Proof.
  unfold setEntryWatchers.
  destruct (ttl >=? 0); cache_simpl; destruct (decide _); repeat split.
Qed.

Lemma count_automatic_load_rest err c :
  let c' := count_automatic_load err c in
  data c' = data c /\ ttlWatcher c' = ttlWatcher c /\
  reloadWatcher c' = reloadWatcher c /\ rand c' = rand c /\
  loaderCalls c' = loaderCalls c.
Proof.
  unfold count_automatic_load. destruct (metrics c) eqn:Hm; [| repeat split].
  cache_simpl. rewrite Hm. simpl.
  destruct (is_generic_error err); simpl; repeat split.
Qed.

(** The TTL watcher after the locked part of a reload turn: pushed only
    when the flag captured before [set] was true and [set] returned a
    non-negative duration. *)
Lemma reloadWatcher_reload_ttlWatcher k entry nowMillis c :
  ttlWatcher (reloadWatcher_reload k entry nowMillis c) =
  let '(v, err) := loadOneFunc c k (loaderCalls c) in
  let ttl := fst (fst (cachedEntry_set entry v err nowMillis (timeouts c) false (rand c))) in
  if accessed entry && (ttl >=? 0) then Push k ttl :: ttlWatcher c
  else ttlWatcher c.
Proof.
  unfold reloadWatcher_reload, call_loadOneFunc, entry_set_in.
  destruct (loadOneFunc c k (loaderCalls c)) as [v err].
  change (timeouts (with_loaderCalls (loaderCalls c ++ k :: nil) c)) with (timeouts c).
  change (rand (with_loaderCalls (loaderCalls c ++ k :: nil) c)) with (rand c).
  destruct (cachedEntry_set entry v err nowMillis (timeouts c) false (rand c))
    as [[ttl entry'] g'].
  rewrite (proj1 (proj2 (count_automatic_load_rest err _))).
  rewrite setEntryWatchers_ttlWatcher. simpl.
  destruct (accessed entry); simpl; reflexivity.
Qed.

(** C4. A turn of the reload watcher for a key whose entry is in the
    index.  In accessed-only mode an entry that was not accessed is
    skipped: the whole state, the record of loader calls included, is
    what it was.  In every mode, when the accessed flag read before [set]
    is false, the TTL watcher receives no call, neither in the turn as a
    whole nor in its locked part started on any such entry. *)
Theorem reload_watcher_unaccessed k entry nowMillis c :
  data c !! k = Some entry ->
  accessed entry = false ->
  (automaticReload c = AutomaticReloadAccessedEntries ->
     reloadWatcher_fired k nowMillis c = c) /\
  ttlWatcher (reloadWatcher_fired k nowMillis c) = ttlWatcher c /\
  (forall entry0, accessed entry0 = false ->
     ttlWatcher (reloadWatcher_reload k entry0 nowMillis c) = ttlWatcher c).
Proof.
  intros Hk Hacc.
  assert (Hreload : forall entry0, accessed entry0 = false ->
            ttlWatcher (reloadWatcher_reload k entry0 nowMillis c) = ttlWatcher c).
  { intros entry0 H0. rewrite reloadWatcher_reload_ttlWatcher.
    destruct (loadOneFunc c k (loaderCalls c)) as [v err].
    rewrite H0. reflexivity. }
  unfold reloadWatcher_fired. rewrite Hk, Hacc. simpl.
  split; [| split].
  - intros ->. rewrite bool_decide_eq_true_2 by reflexivity. reflexivity.
  - destruct (bool_decide _); simpl; [reflexivity | auto].
  - exact Hreload.
Qed.

(** C5. [Invalidate] on a key of the index stores 0 in the entry's
    [nextReload] and leaves its value and accessed flag; the other keys,
    the set of keys, the TTL watcher and the rest of the state stay as
    they were; the reload watcher receives [Push k 0] exactly when
    automatic reload is not disabled.  On a key that is not in the index
    the state is returned as it was. *)
Theorem Invalidate_frame k c :
  (forall entry, data c !! k = Some entry ->
     let c' := Invalidate k c in
     data c' !! k = Some (mkEntry 0 (accessed entry) (value entry)) /\
     (forall k', k' <> k -> data c' !! k' = data c !! k') /\
     dom (data c') = dom (data c) /\
     reloadWatcher c' =
       (if decide (automaticReload c = AutomaticReloadDisabled)
        then reloadWatcher c else Push k 0 :: reloadWatcher c) /\
     ttlWatcher c' = ttlWatcher c /\
     metrics c' = metrics c /\ memSizeValue c' = memSizeValue c /\
     rand c' = rand c /\ loaderCalls c' = loaderCalls c /\
     timeouts c' = timeouts c /\ automaticReload c' = automaticReload c) /\
  (data c !! k = None -> Invalidate k c = c).
Proof.
  split.
  - intros entry Hk c'. subst c'. unfold Invalidate. rewrite Hk.
    assert (Hdom : dom (<[k := store_nextReload 0 entry]> (data c)) = dom (data c)).
    { apply dom_insert_lookup_L. rewrite Hk. eauto. }
    cache_simpl.
    destruct (decide (automaticReload c <> AutomaticReloadDisabled)) as [Hen | Hdis];
      destruct (decide (automaticReload c = AutomaticReloadDisabled)) as [Heq | Hne];
      try contradiction; cache_simpl;
      (split; [apply lookup_insert_eq |]);
      (split; [intros k' Hk'; apply lookup_insert_ne; congruence |]);
      repeat split; assumption.
  - intros Hk. unfold Invalidate. rewrite Hk. reflexivity.
Qed.

Lemma Prison_pending_Push k (d : Duration) (p : Prison K) :
  Prison_pending (Push k d :: p) k = Some d.
Proof. simpl. rewrite decide_True by reflexivity. reflexivity. Qed.

Lemma entry_get_in_lookup ID entry c :
  data (snd (entry_get_in ID entry c)) !! ID = Some (snd (cachedEntry_get entry)).
Proof. unfold entry_get_in. simpl. apply lookup_insert_eq. Qed.

(** Whatever the timeouts and whatever the loader answers, the index
    holds an entry for the key when [Get] returns. *)
Lemma Get_leaves_entry ID nowMillis c :
  is_Some (data (snd (Get ID nowMillis c)) !! ID).
Proof.
  unfold Get.
  destruct (data c !! ID) as [entry |].
  - destruct (nowMillis <? nextReload entry).
    + rewrite entry_get_in_lookup. eauto.
    + destruct (call_loadOneFunc ID _) as [[v err] c1].
      destruct (entry_set_in ID entry v err nowMillis false c1) as [[ttl entry'] c2].
      rewrite entry_get_in_lookup. eauto.
  - destruct (call_loadOneFunc ID _) as [[v err] c1].
    destruct (entry_set_in ID newEntry v err nowMillis true c1) as [[ttl entry'] c2].
    rewrite entry_get_in_lookup. eauto.
Qed.

(** The two outcomes of [addLoadedEntry]. *)
Lemma addLoadedEntry_discard (le : LoadedEntry K T) nowMillis c :
  is_Some (data c !! le_ID le) ->
  is_generic_error (le_Err le) = true ->
  addLoadedEntry le nowMillis c =
  metrics_do ErrorLoadCount_Inc
    (with_rand
       (snd (cachedEntry_set newEntry (le_Value le) (le_Err le) nowMillis
               (timeouts c) true (rand c))) c).
Proof.
  intros Hin Hgen. unfold addLoadedEntry.
  destruct (cachedEntry_set _ _ _ _ _ _ _) as [[ttl entry] g]. cache_simpl.
  rewrite bool_decide_eq_true_2 by exact Hin. rewrite Hgen. reflexivity.
Qed.

Lemma addLoadedEntry_install (le : LoadedEntry K T) nowMillis c :
  data c !! le_ID le = None \/ is_generic_error (le_Err le) = false ->
  addLoadedEntry le nowMillis c =
  let built := cachedEntry_set newEntry (le_Value le) (le_Err le) nowMillis
                 (timeouts c) true (rand c) in
  metrics_do ItemsCount_Inc
    (setEntryWatchers (le_ID le) (fst (fst built)) (snd (fst built)) nowMillis
       (with_data (<[le_ID le := snd (fst built)]> (data c))
          (with_rand (snd built) c))).
Proof.
  intros Hcase. unfold addLoadedEntry.
  destruct (cachedEntry_set _ _ _ _ _ _ _) as [[ttl entry] g]. cache_simpl.
  assert (Hcond : (bool_decide (is_Some (data c !! le_ID le))
                   && is_generic_error (le_Err le))%bool = false).
  { destruct Hcase as [Hnone | Hgen].
    - rewrite bool_decide_eq_false_2; [reflexivity |].
      rewrite Hnone. intros [x Hx]. discriminate.
    - rewrite Hgen. apply andb_false_r. }
  rewrite Hcond. reflexivity.
Qed.

Lemma metrics_do_fields (f : Metrics -> Metrics) c :
  let c' := metrics_do f c in
  metrics c' = f <$> metrics c /\ data c' = data c /\
  ttlWatcher c' = ttlWatcher c /\ reloadWatcher c' = reloadWatcher c /\
  rand c' = rand c /\ loaderCalls c' = loaderCalls c.
Proof. unfold metrics_do. destruct (metrics c) eqn:Hm; simpl; rewrite ?Hm; repeat split. Qed.

(** C8. A preloaded item whose key is in the index and whose error is
    neither nil nor NotFound is dropped: the index, hence the entry
    stored under the key, and both watchers are what they were, and
    error_loads is one more than it was, the other counters as they
    were.  In every other case (key absent, item without error, item
    NotFound) the entry built by [set] with the first-load flag is stored
    under the key, the watchers are armed by the rules of
    [setEntryWatchers], and items_count is one more than it was. *)
Theorem addLoadedEntry_cases (le : LoadedEntry K T) nowMillis c :
  let built := cachedEntry_set newEntry (le_Value le) (le_Err le) nowMillis
                 (timeouts c) true (rand c) in
  let ttl := fst (fst built) in
  let entry := snd (fst built) in
  let c' := addLoadedEntry le nowMillis c in
  (is_Some (data c !! le_ID le) -> is_generic_error (le_Err le) = true ->
     data c' = data c /\
     ttlWatcher c' = ttlWatcher c /\ reloadWatcher c' = reloadWatcher c /\
     metrics c' =
       (fun m => mkMetrics (ItemsCount m) (AutomaticLoadCount m) (LazyLoadCount m)
                   (ErrorLoadCount m + 1) (ReadsCount m)
                   (ReceivedNatsInvalidations m) (MemoryUsage m)) <$> metrics c) /\
  (data c !! le_ID le = None \/ is_generic_error (le_Err le) = false ->
     data c' = <[le_ID le := entry]> (data c) /\
     ttlWatcher c' =
       (if ttl >=? 0 then Push (le_ID le) ttl :: ttlWatcher c else ttlWatcher c) /\
     reloadWatcher c' =
       (if decide (automaticReload c = AutomaticReloadDisabled) then reloadWatcher c
        else Push (le_ID le) (mul64 (sub64 (nextReload entry) nowMillis) Millisecond)
               :: reloadWatcher c) /\
     metrics c' =
       (fun m => mkMetrics (ItemsCount m + 1) (AutomaticLoadCount m) (LazyLoadCount m)
                   (ErrorLoadCount m) (ReadsCount m)
                   (ReceivedNatsInvalidations m) (MemoryUsage m)) <$> metrics c).
Proof.
  intros built ttl entry c'. split.
  - intros Hin Hgen. subst c'. rewrite addLoadedEntry_discard by assumption.
    destruct (metrics_do_fields ErrorLoadCount_Inc
                (with_rand (snd built) c)) as (Hm & Hd & Ht & Hr & _).
    fold built. rewrite Hm, Hd, Ht, Hr. repeat split.
  - intros Hcase. subst c'. rewrite addLoadedEntry_install by exact Hcase.
    fold built. cbv zeta. fold ttl entry.
    set (c1 := with_data (<[le_ID le := entry]> (data c)) (with_rand (snd built) c)).
    destruct (metrics_do_fields ItemsCount_Inc
                (setEntryWatchers (le_ID le) ttl entry nowMillis c1))
      as (Hm & Hd & Ht & Hr & _).
    rewrite Hm, Hd, Ht, Hr.
    rewrite setEntryWatchers_ttlWatcher, setEntryWatchers_reloadWatcher.
    destruct (setEntryWatchers_rest (le_ID le) ttl entry nowMillis c1)
      as (Hd' & Hm' & _).
    rewrite Hd', Hm'. repeat split.
Qed.


End CacheProperties.

(** ** Construction *)

Section ConstructionProperties.

Context {K : Type} `{Countable K} {T : Type}.

Lemma Timeouts_check_None (t : Timeouts) :
  Timeouts_check t = None <->
  TTL t <> 0 /\ ReloadInterval t <= TTL t /\
  PrimFloat.ltb (Randomizer t) 0%float = false /\
  PrimFloat.ltb 1%float (Randomizer t) = false.
Proof.
  unfold Timeouts_check.
  destruct (Z.eqb_spec (TTL t) 0) as [Hz | Hz].
  { split; [discriminate | intros (Hne & _); contradiction]. }
  destruct (Z.gtb_spec (ReloadInterval t) (TTL t)) as [Hgt | Hle].
  { split; [discriminate | intros (_ & Hle & _); lia]. }
  destruct (PrimFloat.ltb (Randomizer t) 0) eqn:Hneg.
  { split; [discriminate | intros (_ & _ & Hf & _); discriminate]. }
  destruct (PrimFloat.ltb 1 (Randomizer t)) eqn:Hbig.
  { split; [discriminate | intros (_ & _ & _ & Hf); discriminate]. }
  split; [intros _; repeat split; auto; lia | reflexivity].
Qed.

Lemma Params_check_None (params : Params K T) :
  Params_check params = None <->
  p_Context params <> None /\ p_Name params <> ""%string /\
  p_LoadOneFunc params <> None /\ Timeouts_check (p_Timeouts params) = None.
Proof.
  unfold Params_check.
  destruct (p_Context params) as [ctx |].
  2: { split; [discriminate | intros (Hc & _); contradiction]. }
  destruct (String.eqb_spec (p_Name params) "") as [Hn | Hn].
  { split; [discriminate | intros (_ & Hne & _); contradiction]. }
  destruct (p_LoadOneFunc params) as [f |].
  2: { split; [discriminate | intros (_ & _ & Hl & _); contradiction]. }
  split; [intros Ht; repeat split; auto; discriminate | intros (_ & _ & _ & Ht); exact Ht].
Qed.

(** C6, as the code has it.  [Timeouts.check] accepts a record exactly
    when TTL is not 0, ReloadInterval does not exceed TTL, and Randomizer
    is neither below 0 nor above 1 (a NaN is neither); [Params.check]
    adds the context, the name and the loader; [NewCache] returns the
    error of [Params.check] when there is one, and otherwise fails only
    if a metrics registry is given and a registration fails.  Nothing
    asks TTL or ReloadInterval to be positive. *)
Theorem NewCache_validation (params : Params K T) (g : Source) :
  let t := p_Timeouts params in
  (Timeouts_check t = None <->
     TTL t <> 0 /\ ReloadInterval t <= TTL t /\
     PrimFloat.ltb (Randomizer t) 0%float = false /\
     PrimFloat.ltb 1%float (Randomizer t) = false) /\
  (Params_check params = None <->
     p_Context params <> None /\ p_Name params <> ""%string /\
     p_LoadOneFunc params <> None /\ Timeouts_check t = None) /\
  (forall err, Params_check params = Some err -> NewCache params g = inr err) /\
  ((exists c, NewCache params g = inl c) <->
     Params_check params = None /\
     (p_MetricsRegistry params = None \/
      exists registry m, p_MetricsRegistry params = Some registry /\
                         Metrics_New (p_Name params) registry = inl m)).
Proof.
  intros t. split; [apply Timeouts_check_None |].
  split; [apply Params_check_None |].
  split.
  { intros err Herr. unfold NewCache. rewrite Herr. reflexivity. }
  unfold NewCache.
  destruct (Params_check params) as [err |] eqn:Hcheck.
  { split; [intros [c Hc]; discriminate | intros [Hf _]; discriminate]. }
  apply Params_check_None in Hcheck. destruct Hcheck as (_ & _ & Hload & _).
  destruct (p_LoadOneFunc params) as [loader |]; [| contradiction].
  destruct (p_MetricsRegistry params) as [registry |].
  - destruct (Metrics_New (p_Name params) registry) as [m | err] eqn:Hnew.
    + split; [| eauto]. intros _. split; [reflexivity |].
      right. exists registry, m. split; [reflexivity | exact Hnew].
    + split; [intros [c Hc]; discriminate |].
      intros (_ & [Hnone | (r & m & Hr & Hm)]); [discriminate |].
      injection Hr as <-. rewrite Hnew in Hm. discriminate.
  - split; [| eauto]. intros _. split; [reflexivity | left; reflexivity].
Qed.

End ConstructionProperties.

(** ** Concrete runs *)

(** [RandomizeDuration] on 10s with a randomizer of 0.2: a draw of 0.5
    moves the duration by one second, up or down with the second draw. *)
Example RandomizeDuration_up :
  jitter (10 * Second) 0x1.999999999999ap-3%float
    (mkSource (fun _ => 0.5%float) (fun _ => 1) 0) = 11 * Second.
Proof. vm_compute. reflexivity. Qed.

Example RandomizeDuration_down :
  jitter (10 * Second) 0x1.999999999999ap-3%float
    (mkSource (fun _ => 0.5%float) (fun _ => 0) 0) = 9 * Second.
Proof. vm_compute. reflexivity. Qed.

(** The four cases of [TestEntrySetFirstTime]. *)
Example TestEntrySetFirstTime :
  let set err v :=
    fst (cachedEntry_set newEntry v err Scenario.nowMillis
           Scenario.entryTestTimeouts true Scenario.source) in
  let reload := Scenario.nowMillis + 3000 in
  set (Some (errorString "other error")) None
    = (1 * Second, mkEntry reload false None) /\
  set (Some ErrNotFound) None = (5 * Second, mkEntry reload false None) /\
  set (Some (wrapError "custom not found" ErrNotFound)) None
    = (5 * Second, mkEntry reload false None) /\
  set None (Some "value1"%string)
    = (8 * Second, mkEntry reload false (Some "value1"%string)).
Proof. vm_compute. repeat split. Qed.

(** The start of [testCacheEntriesExpiration]: three keys are read, the
    index holds three entries and the TTL watcher has been handed
    ErrorTTL, NotFoundTTL and TTL. *)
Example three_reads :
  let c0 := Scenario.cache Scenario.cacheTestTimeouts AutomaticReloadDisabled in
  let c3 := snd (Get 2 Scenario.nowMillis
                   (snd (Get 1 Scenario.nowMillis
                           (snd (Get 0 Scenario.nowMillis c0))))) in
  size (data c3) = 3%nat /\
  ttlWatcher c3 = Push 2 (7 * Second) :: Push 1 (5 * Second) :: Push 0 (1 * Second) :: nil /\
  reloadWatcher c3 = nil /\
  loaderCalls c3 = 0 :: 1 :: 2 :: nil.
Proof. vm_compute. repeat split. Qed.

(** A NaN randomizer is neither below 0 nor above 1. *)
Example nan_randomizer_accepted :
  Timeouts_check (mkTimeouts (7 * Second) 0 0 (3 * Second) nan 0) = None.
Proof. reflexivity. Qed.

(** C6, as the specification words it, fails: a negative TTL with a smaller
    ReloadInterval, and a ReloadInterval of 0, are not valid by the
    specification, yet pass the check and the cache is built. *)
Lemma invalid_timeouts_accepted :
  (~ Timeouts_valid_spec Scenario.negativeTimeouts /\
   Timeouts_check Scenario.negativeTimeouts = None /\
   NewCache (Scenario.params Scenario.negativeTimeouts AutomaticReloadDisabled)
     Scenario.source
   = inl (Scenario.cache Scenario.negativeTimeouts AutomaticReloadDisabled)) /\
  (~ Timeouts_valid_spec Scenario.zeroReloadTimeouts /\
   Timeouts_check Scenario.zeroReloadTimeouts = None /\
   NewCache (Scenario.params Scenario.zeroReloadTimeouts AutomaticReloadDisabled)
     Scenario.source
   = inl (Scenario.cache Scenario.zeroReloadTimeouts AutomaticReloadDisabled)).
Proof.
  split; (split; [| split; reflexivity]).
  - intros (Hpos & _). vm_compute in Hpos. discriminate.
  - intros (_ & (Hpos & _) & _). vm_compute in Hpos. discriminate.
Qed.

(** C10, as the specification words it, fails.  Key 2 enters the index
    through [Get], which does not count it: items_count is 0 for one
    key.  A value is then preloaded for key 2: the index still has one
    key and items_count is 1, which does not exceed it. *)
Lemma preload_after_Get_gauge_equals_size :
  let c := Scenario.read_with_metrics in
  let c' := addLoadedEntry Scenario.preloadValue (Scenario.nowMillis + 100) c in
  is_Some (data c !! 2) /\
  is_generic_error (le_Err Scenario.preloadValue) = false /\
  ItemsCount <$> metrics c = Some 0 /\
  ItemsCount <$> metrics c' = Some 1 /\
  Z.of_nat (size (data c')) = 1 /\
  ~ (exists n, ItemsCount <$> metrics c' = Some n /\ Z.of_nat (size (data c')) < n).
Proof.
  intros c c'.
  assert (Hg : ItemsCount <$> metrics c' = Some 1) by (vm_compute; reflexivity).
  assert (Hs : Z.of_nat (size (data c')) = 1) by (vm_compute; reflexivity).
  split; [vm_compute; eauto |]. split; [reflexivity |].
  split; [vm_compute; reflexivity |]. split; [exact Hg |]. split; [exact Hs |].
  intros (n & Hn & Hlt). rewrite Hg in Hn. injection Hn as <-.
  rewrite Hs in Hlt. lia.
Qed.

(** C7 at a concrete input.  NotFoundTTL is 0 and the loader answers
    NotFound for key 1.  After the first [Get] the index holds a
    not-found entry for the key, fresh for one reload interval, and the
    TTL watcher has been handed the key with a duration of 0; a second
    [Get] one millisecond later answers from that entry without calling
    the loader; the entry goes when the TTL watcher's turn for the key
    runs. *)
Theorem not_found_zero_ttl_retained :
  let now := Scenario.nowMillis in
  let c0 := Scenario.cache Scenario.zeroTTLTimeouts AutomaticReloadDisabled in
  let c1 := snd (Get 1 now c0) in
  let c2 := snd (Get 1 (now + 1) c1) in
  NotFoundTTL (timeouts c0) = 0 /\
  loadOneFunc c0 1 nil = (None, Some ErrNotFound) /\
  fst (Get 1 now c0) = None /\
  data c1 !! 1 = Some (mkEntry (now + 1000) true None) /\
  ttlWatcher c1 = Push 1 0 :: nil /\
  loaderCalls c1 = 1 :: nil /\
  fst (Get 1 (now + 1) c1) = None /\
  loaderCalls c2 = 1 :: nil /\
  data c2 !! 1 = Some (mkEntry (now + 1000) true None) /\
  data (ttlWatcher_fired 1 c2) !! 1 = None.
Proof. vm_compute. repeat split. Qed.

(** ** Goroutines and the entry mutex *)

Module InterleavingProperties.
Import Interleaving.

Section Invariant.

Context {K : Type} `{Countable K} {T : Type}.
Implicit Types (s : State K T) (p : pc K) (a : action K T) (t : tid) (h : handle).
Implicit Types (ix : gmap K handle) (th : gmap tid (pc K)) (ho : gmap handle tid).

(** A goroutine moves on without touching a mutex. *)
Lemma locks_consistent_goto ix th ho al t p :
  locks_consistent ix th ho al ->
  (forall h, locked_by p = Some h -> ho !! h = Some t) ->
  (forall h, handle_of p = Some h -> (h < al)%nat) ->
  locks_consistent ix (<[t := p]> th) ho al.
Proof.
  intros (Hpc & Hal & Hhd & Hix) Hp Hh. repeat split; [| exact Hal | | exact Hix].
  - intros t' h. destruct (decide (t = t')) as [<- | Hne].
    + rewrite lookup_insert_eq. simpl. apply Hp.
    + rewrite lookup_insert_ne by exact Hne. apply Hpc.
  - intros t' h. destruct (decide (t = t')) as [<- | Hne].
    + rewrite lookup_insert_eq. simpl. apply Hh.
    + rewrite lookup_insert_ne by exact Hne. apply Hhd.
Qed.

(** A goroutine takes a mutex that is free. *)
Lemma locks_consistent_lock ix th ho al t p h :
  locks_consistent ix th ho al ->
  ho !! h = None ->
  locked_by p = Some h -> handle_of p = Some h -> (h < al)%nat ->
  locks_consistent ix (<[t := p]> th) (<[h := t]> ho) al.
Proof.
  intros (Hpc & Hal & Hhd & Hix) Hfree Hp Hh Hlt.
  repeat split; [| | | exact Hix].
  - intros t' h'. destruct (decide (t = t')) as [<- | Hne].
    + rewrite lookup_insert_eq. simpl. rewrite Hp. intros [= <-].
      apply lookup_insert_eq.
    + rewrite lookup_insert_ne by exact Hne. intros Hl.
      specialize (Hpc _ _ Hl).
      rewrite lookup_insert_ne; [exact Hpc | congruence].
  - intros h' t'. destruct (decide (h = h')) as [<- | Hne].
    + intros _. exact Hlt.
    + rewrite lookup_insert_ne by exact Hne. apply Hal.
  - intros t' h'. destruct (decide (t = t')) as [<- | Hne].
    + rewrite lookup_insert_eq. simpl. rewrite Hh. intros [= <-]. exact Hlt.
    + rewrite lookup_insert_ne by exact Hne. apply Hhd.
Qed.

(** A goroutine releases the mutex it holds and returns. *)
Lemma locks_consistent_unlock ix th ho al t h :
  locks_consistent ix th ho al ->
  locked_by (default Idle (th !! t)) = Some h ->
  locks_consistent ix (<[t := Idle]> th) (delete h ho) al.
Proof.
  intros (Hpc & Hal & Hhd & Hix) Hheld. repeat split; [| | | exact Hix].
  - intros t' h'. destruct (decide (t = t')) as [<- | Hne].
    + rewrite lookup_insert_eq. discriminate.
    + rewrite lookup_insert_ne by exact Hne. intros Hl.
      pose proof (Hpc _ _ Hl) as Hh'. pose proof (Hpc _ _ Hheld) as Hh.
      rewrite lookup_delete_ne; [exact Hh' | congruence].
  - intros h' t' Hl. apply lookup_delete_Some in Hl as [_ Hl]. eauto.
  - intros t' h'. destruct (decide (t = t')) as [<- | Hne].
    + rewrite lookup_insert_eq. discriminate.
    + rewrite lookup_insert_ne by exact Hne. apply Hhd.
Qed.

(** An entry is allocated. *)
Lemma locks_consistent_alloc ix th ho al :
  locks_consistent ix th ho al ->
  locks_consistent ix th ho (S al) /\ ho !! al = None.
Proof.
  intros (Hpc & Hal & Hhd & Hix). split.
  - repeat split; [exact Hpc | | |].
    + intros h t Hl. specialize (Hal _ _ Hl). lia.
    + intros t h Hl. specialize (Hhd _ _ Hl). lia.
    + intros k h Hl. specialize (Hix _ _ Hl). lia.
  - destruct (ho !! al) as [t |] eqn:Hl; [| reflexivity].
    specialize (Hal _ _ Hl). lia.
Qed.

(** The index changes. *)
Lemma locks_consistent_insert ix th ho al k h :
  locks_consistent ix th ho al -> (h < al)%nat ->
  locks_consistent (<[k := h]> ix) th ho al.
Proof.
  intros (Hpc & Hal & Hhd & Hix) Hlt. repeat split; [exact Hpc | exact Hal | exact Hhd |].
  intros k' h'. destruct (decide (k = k')) as [<- | Hne].
  - rewrite lookup_insert_eq. intros [= <-]. exact Hlt.
  - rewrite lookup_insert_ne by exact Hne. apply Hix.
Qed.

Lemma locks_consistent_delete ix th ho al k :
  locks_consistent ix th ho al -> locks_consistent (delete k ix) th ho al.
Proof.
  intros (Hpc & Hal & Hhd & Hix). repeat split; [exact Hpc | exact Hal | exact Hhd |].
  intros k' h' Hl. apply lookup_delete_Some in Hl as [_ Hl]. eauto.
Qed.

(** [get] and [set] on an entry leave goroutines and mutexes alone. *)
Lemma get_at_locks h s s' :
  get_at h s = Some s' ->
  index s' = index s /\ threads s' = threads s /\
  holder s' = holder s /\ allocated s' = allocated s.
Proof.
  unfold get_at. destruct (store s !! h); simpl; [| discriminate].
  intros [= <-]. repeat split.
Qed.

Lemma set_at_locks h v err nowMillis init s s' :
  set_at h v err nowMillis init s = Some s' ->
  index s' = index s /\ threads s' = threads s /\
  holder s' = holder s /\ allocated s' = allocated s.
Proof.
  unfold set_at. destruct (store s !! h) as [e |]; simpl; [| discriminate].
  destruct (cachedEntry_set e v err nowMillis (st_timeouts s) init (st_rand s))
    as [[ttl e'] g].
  intros [= <-]. repeat split.
Qed.

(** Every atomic action preserves the invariant. *)
Lemma step_lock_invariant t a s s' :
  lock_invariant s -> step t a s = Some s' -> lock_invariant s'.
Proof.
  unfold lock_invariant. intros Hinv Hstep.
  pose proof (proj1 Hinv t) as Hmine.
  pose proof (proj1 (proj2 (proj2 Hinv)) t) as Hhand.
  pose proof (proj2 (proj2 (proj2 Hinv))) as Hindex.
  unfold step in Hstep. unfold pc_of in Hstep.
  destruct (default Idle (threads s !! t)) as
    [ | ID now h | ID now h | ID now h | ID now | ID now h | ID now h init
      | id h | id now h ] eqn:Hpc;
    destruct a as [ID' now' | ID' | ID' | le now' | ID' | id' | now' | v err];
    try discriminate; simpl in Hstep, Hmine, Hhand.
  - (* Get: lookup *)
    destruct (index s !! ID') as [h |] eqn:Hix; injection Hstep as <-; simpl;
      apply locks_consistent_goto; simpl; try discriminate; try exact Hinv.
    intros h' [= <-]. eauto.
  - (* Remove *)
    injection Hstep as <-. simpl. apply locks_consistent_delete, Hinv.
  - (* Invalidate *)
    destruct (index s !! ID') as [h |]; [| injection Hstep as <-; exact Hinv].
    destruct (store s !! h) as [e |]; simpl in Hstep; [| discriminate].
    injection Hstep as <-. exact Hinv.
  - (* addLoadedEntry *)
    destruct (set_at _ _ _ _ _ _) as [s1 |] eqn:Hset; simpl in Hstep; [| discriminate].
    apply set_at_locks in Hset. simpl in Hset. destruct Hset as (Hi & Ht & Hh & Ha).
    apply locks_consistent_alloc in Hinv as [Hinv _].
    destruct (_ && _); injection Hstep as <-; simpl; rewrite ?Hi, Ht, Hh, Ha.
    + exact Hinv.
    + apply locks_consistent_insert; [exact Hinv | lia].
  - (* TTL watcher *)
    injection Hstep as <-. simpl. apply locks_consistent_delete, Hinv.
  - (* reload watcher: lookup *)
    destruct (decide _); [discriminate |].
    destruct (index s !! id') as [h |] eqn:Hix; [| injection Hstep as <-; exact Hinv].
    destruct (store s !! h) as [e |]; simpl in Hstep; [| discriminate].
    destruct (_ && _); injection Hstep as <-; [exact Hinv |]. simpl.
    apply locks_consistent_goto; simpl; try discriminate; try exact Hinv.
    intros h' [= <-]. eauto.
  - (* Get: fresh, no lock *)
    destruct (store s !! h) as [e |]; simpl in Hstep; [| discriminate].
    destruct (now <? nextReload e).
    + destruct (get_at h s) as [s1 |] eqn:Hget; simpl in Hstep; [| discriminate].
      apply get_at_locks in Hget as (Hi & Ht & Hh & Ha).
      injection Hstep as <-. simpl. rewrite Hi, Ht, Hh, Ha.
      apply locks_consistent_goto; simpl; try discriminate; exact Hinv.
    + injection Hstep as <-. simpl.
      apply locks_consistent_goto; simpl; try discriminate; try exact Hinv.
      intros h' [= <-]. eauto.
  - (* Get: Lock *)
    destruct (holder s !! h) as [t' |] eqn:Hfree; [discriminate |].
    injection Hstep as <-. simpl.
    apply locks_consistent_lock; eauto.
  - (* Get: re-check under the lock *)
    destruct (store s !! h) as [e |]; simpl in Hstep; [| discriminate].
    destruct (now <? nextReload e).
    + destruct (get_at h (unlock h s)) as [s1 |] eqn:Hget; simpl in Hstep; [| discriminate].
      apply get_at_locks in Hget as (Hi & Ht & Hh & Ha). simpl in Hi, Ht, Hh, Ha.
      injection Hstep as <-. simpl. rewrite Hi, Ht, Hh, Ha.
      apply locks_consistent_unlock; [exact Hinv |]. rewrite Hpc. reflexivity.
    + injection Hstep as <-. simpl.
      apply locks_consistent_goto; simpl; try exact Hinv.
      * intros h' [= <-]. eauto.
      * intros h' [= <-]. eauto.
  - (* Get: a new entry, locked *)
    injection Hstep as <-. simpl.
    apply locks_consistent_alloc in Hinv as [Hinv Hfree].
    apply locks_consistent_lock; eauto.
  - (* Get: publish *)
    injection Hstep as <-. simpl.
    apply locks_consistent_goto; simpl.
    + apply locks_consistent_insert; eauto.
    + intros h' [= <-]. eauto.
    + intros h' [= <-]. eauto.
  - (* Get: the loader has returned *)
    destruct (set_at _ _ _ _ _ _) as [s1 |] eqn:Hset; simpl in Hstep; [| discriminate].
    apply set_at_locks in Hset as (Hi & Ht & Hh & Ha).
    destruct (get_at h (unlock h s1)) as [s2 |] eqn:Hget; simpl in Hstep; [| discriminate].
    apply get_at_locks in Hget as (Hi2 & Ht2 & Hh2 & Ha2). simpl in Hi2, Ht2, Hh2, Ha2.
    injection Hstep as <-. simpl. rewrite Hi2, Ht2, Hh2, Ha2, Hi, Ht, Hh, Ha.
    apply locks_consistent_unlock; [exact Hinv |]. rewrite Hpc. reflexivity.
  - (* reload watcher: Lock *)
    destruct (holder s !! h) as [t' |] eqn:Hfree; [discriminate |].
    injection Hstep as <-. simpl.
    apply locks_consistent_lock; eauto.
  - (* reload watcher: the loader has returned *)
    destruct (set_at _ _ _ _ _ _) as [s1 |] eqn:Hset; simpl in Hstep; [| discriminate].
    apply set_at_locks in Hset as (Hi & Ht & Hh & Ha).
    injection Hstep as <-. simpl. rewrite Hi, Ht, Hh, Ha.
    apply locks_consistent_unlock; [exact Hinv |]. rewrite Hpc. reflexivity.
Qed.

Lemma initial_lock_invariant (tm : Timeouts) mode g :
  lock_invariant (initial (K := K) (T := T) tm mode g).
Proof.
  unfold lock_invariant, initial. simpl. repeat split.
  - intros t h. rewrite lookup_empty. discriminate.
  - intros h t. rewrite lookup_empty. discriminate.
  - intros t h. rewrite lookup_empty. discriminate.
  - intros k h. rewrite lookup_empty. discriminate.
Qed.

Lemma run_lock_invariant schedule s s' :
  lock_invariant s -> run schedule s = Some s' -> lock_invariant s'.
Proof.
  revert s. induction schedule as [| [t a] rest IH]; intros s Hinv Hrun; simpl in Hrun.
  - injection Hrun as <-. exact Hinv.
  - destruct (step t a s) as [s1 |] eqn:Hstep; simpl in Hrun; [| discriminate].
    eapply IH; [| exact Hrun]. eapply step_lock_invariant; eassumption.
Qed.

(** C9, as the code has it.  In every state that a schedule reaches
    from a cache that has just been built, two loader calls in flight on
    the same entry belong to the same goroutine, whose one program
    counter makes them the same call: the loader calls on an entry are
    serialised by the entry's mutex.  Nothing is said of two entries
    built for the same key. *)
Theorem loader_calls_serialized_per_entry schedule (tm : Timeouts) mode g s
    t1 t2 (k1 k2 : K) h :
  run schedule (initial (T := T) tm mode g) = Some s ->
  loading (pc_of s t1) = Some (k1, h) ->
  loading (pc_of s t2) = Some (k2, h) ->
  t1 = t2.
Proof.
  intros Hrun H1 H2.
  pose proof (run_lock_invariant _ _ _ (initial_lock_invariant tm mode g) Hrun)
    as (Hlk & _).
  assert (Hl : forall t k, loading (pc_of s t) = Some (k, h) ->
                           holder s !! h = Some t).
  { intros t k Hload. apply Hlk. unfold pc_of in Hload.
    destruct (default Idle (threads s !! t)); simpl in Hload |- *;
      try discriminate; injection Hload as _ <-; reflexivity. }
  apply Hl in H1. apply Hl in H2. congruence.
Qed.

End Invariant.


End InterleavingProperties.

(** C9, as the specification words it, fails.  After [two_misses]
    goroutine 0 is inside the loader for key 7 on entry 0 and goroutine 1
    is inside the loader for key 7 on entry 1: each locked the entry it
    had just built. *)
Lemma two_loader_calls_for_one_key :
  option_map
    (fun s => (Interleaving.loading (Interleaving.pc_of s 0%nat),
               Interleaving.loading (Interleaving.pc_of s 1%nat)))
    (Interleaving.run Scenario.two_misses Scenario.empty_state)
  = Some (Some (7, 0%nat), Some (7, 1%nat))
  /\ ~ (forall s, Interleaving.run Scenario.two_misses Scenario.empty_state = Some s ->
                  Interleaving.one_loader_per_key s).
Proof.
  split; [vm_compute; reflexivity |].
  intros Hall.
  destruct (Interleaving.run Scenario.two_misses Scenario.empty_state) as [s |] eqn:Hrun;
    [| vm_compute in Hrun; discriminate].
  assert (Hs : (Interleaving.loading (Interleaving.pc_of s 0%nat),
                Interleaving.loading (Interleaving.pc_of s 1%nat))
               = (Some (7, 0%nat), Some (7, 1%nat))).
  { vm_compute in Hrun. injection Hrun as <-. vm_compute. reflexivity. }
  injection Hs as H0 H1.
  specialize (Hall s eq_refl 0%nat 1%nat 7 0%nat 1%nat H0 H1). discriminate.
Qed.


(** ** The properties at concrete inputs *)

(** C2 on the reload of [TestEntryReloadAfterSuccess] with a wrapped
    NotFound: the value is cleared and the result is NotFoundTTL. *)
Lemma set_not_found_witness :
  In ErrNotFound (cause_chain (wrapError "custom not found" ErrNotFound)) /\
  cachedEntry_set Scenario.loadedEntry None
    (Some (wrapError "custom not found" ErrNotFound))
    Scenario.nowMillis Scenario.entryTestTimeouts false Scenario.source
  = (5 * Second, mkEntry (Scenario.nowMillis + 3000) false None, Scenario.source).
Proof.
  assert (Hin : In ErrNotFound (cause_chain (wrapError "custom not found" ErrNotFound))).
  { simpl. right. left. reflexivity. }
  split; [exact Hin |].
  exact (proj1 (set_not_found Scenario.loadedEntry None _ Scenario.nowMillis
                  Scenario.entryTestTimeouts false Scenario.source Hin)).
Defined.

(** C3 on the reload of [TestEntryReloadAfterSuccess] with another
    error: the value stays and the result is -1. *)
Lemma set_generic_error_witness :
  ~ In ErrNotFound (cause_chain (errorString "other error")) /\
  cachedEntry_set Scenario.loadedEntry None (Some (errorString "other error"))
    Scenario.nowMillis Scenario.entryTestTimeouts false Scenario.source
  = (-1, mkEntry (Scenario.nowMillis + 3000) false (Some "value0"%string),
     Scenario.source).
Proof.
  assert (Hnot : ~ In ErrNotFound (cause_chain (errorString "other error"))).
  { simpl. intros [Heq | []]. discriminate. }
  split; [exact Hnot |].
  exact (set_generic_error Scenario.loadedEntry None _ Scenario.nowMillis
           Scenario.entryTestTimeouts false Scenario.source Hnot).
Defined.

(** C4 in accessed-only mode: after one read and one automatic reload
    the entry of key 2 is not accessed, and the next turn of the reload
    watcher changes nothing. *)
Lemma reload_watcher_unaccessed_witness :
  let c := Scenario.reloaded_once AutomaticReloadAccessedEntries in
  let entry := mkEntry (Scenario.nowMillis + 6000) false (Some "value"%string) in
  data c !! 2 = Some entry /\
  accessed entry = false /\
  automaticReload c = AutomaticReloadAccessedEntries /\
  loaderCalls c = 2 :: 2 :: nil /\
  reloadWatcher_fired 2 (Scenario.nowMillis + 6000) c = c.
Proof.
  intros c entry.
  assert (Hk : data c !! 2 = Some entry) by (vm_compute; reflexivity).
  assert (Hm : automaticReload c = AutomaticReloadAccessedEntries)
    by (vm_compute; reflexivity).
  assert (Hl : loaderCalls c = 2 :: 2 :: nil) by (vm_compute; reflexivity).
  split; [exact Hk |]. split; [reflexivity |]. split; [exact Hm |].
  split; [exact Hl |].
  exact (proj1 (reload_watcher_unaccessed 2 entry (Scenario.nowMillis + 6000) c
                  Hk eq_refl) Hm).
Defined.

(** C5 on a cache that holds key 2 and not key 5, with automatic reload
    disabled. *)
Lemma Invalidate_frame_witness :
  let c := Scenario.read_once AutomaticReloadDisabled in
  let entry := mkEntry (Scenario.nowMillis + 3000) true (Some "value"%string) in
  data c !! 2 = Some entry /\
  data (Invalidate 2 c) !! 2 = Some (mkEntry 0 true (Some "value"%string)) /\
  ttlWatcher (Invalidate 2 c) = ttlWatcher c /\
  data c !! 5 = None /\
  Invalidate 5 c = c.
Proof.
  intros c entry.
  assert (Hk : data c !! 2 = Some entry) by (vm_compute; reflexivity).
  assert (Hn : data c !! 5 = None) by (vm_compute; reflexivity).
  pose proof (proj1 (Invalidate_frame 2 c) entry Hk) as (Hd & _ & _ & _ & Ht & _).
  split; [exact Hk |]. split; [exact Hd |]. split; [exact Ht |].
  split; [exact Hn |].
  exact (proj2 (Invalidate_frame 5 c) Hn).
Defined.

(** C6 on the parameters of the package's tests: they pass the checks
    and the cache is built. *)
Lemma NewCache_validation_witness :
  let params := Scenario.params Scenario.cacheTestTimeouts AutomaticReloadDisabled in
  Params_check params = None /\
  p_MetricsRegistry params = None /\
  exists c, NewCache params Scenario.source = inl c.
Proof.
  intros params.
  assert (Hc : Params_check params = None) by reflexivity.
  split; [exact Hc |]. split; [reflexivity |].
  destruct (NewCache_validation params Scenario.source) as (_ & _ & _ & Hbuilt).
  apply Hbuilt. split; [exact Hc | left; reflexivity].
Defined.

(** C8 on a cache with a metrics sink that holds key 2: a preloaded
    error for the key is dropped and error_loads goes from 0 to 1; a
    preloaded value for it is installed and items_count goes from 1 to
    2. *)
Lemma addLoadedEntry_cases_witness :
  let c := Scenario.preloaded_once in
  let dropped := addLoadedEntry Scenario.preloadError (Scenario.nowMillis + 100) c in
  let installed := addLoadedEntry Scenario.preloadValue (Scenario.nowMillis + 100) c in
  is_Some (data c !! 2) /\
  metrics c = Some (mkMetrics 1 0 0 0 0 0 0) /\
  is_generic_error (le_Err Scenario.preloadError) = true /\
  data dropped = data c /\
  ttlWatcher dropped = ttlWatcher c /\
  metrics dropped = Some (mkMetrics 1 0 0 1 0 0 0) /\
  is_generic_error (le_Err Scenario.preloadValue) = false /\
  data installed !! 2
  = Some (mkEntry (Scenario.nowMillis + 3100) false (Some "value"%string)) /\
  metrics installed = Some (mkMetrics 2 0 0 0 0 0 0).
Proof.
  intros c dropped installed.
  assert (Hk : is_Some (data c !! 2)) by (vm_compute; eauto).
  assert (Hm : metrics c = Some (mkMetrics 1 0 0 0 0 0 0)) by (vm_compute; reflexivity).
  destruct (addLoadedEntry_cases Scenario.preloadError (Scenario.nowMillis + 100) c)
    as [Hdrop _].
  destruct (addLoadedEntry_cases Scenario.preloadValue (Scenario.nowMillis + 100) c)
    as [_ Hinst].
  destruct (Hdrop Hk eq_refl) as (Hd & Ht & _ & Hme).
  destruct (Hinst (or_intror eq_refl)) as (Hd' & _ & _ & Hme').
  split; [exact Hk |]. split; [exact Hm |]. split; [reflexivity |].
  split; [exact Hd |]. split; [exact Ht |].
  split; [eapply eq_trans; [exact Hme |]; rewrite Hm; reflexivity |].
  split; [reflexivity |].
  split.
  - eapply eq_trans; [exact (f_equal (fun d => d !! 2) Hd') |].
    rewrite lookup_insert_eq. vm_compute. reflexivity.
  - eapply eq_trans; [exact Hme' |]. rewrite Hm. reflexivity.
Defined.


(** C9 on a single goroutine inside the loader after a miss. *)
Lemma loader_calls_serialized_per_entry_witness :
  option_map (fun s => Interleaving.loading (Interleaving.pc_of s 0%nat))
    (Interleaving.run Scenario.one_miss Scenario.empty_state)
  = Some (Some (7, 0%nat)) /\
  0%nat = 0%nat.
Proof.
  split; [vm_compute; reflexivity |].
  destruct (Interleaving.run Scenario.one_miss Scenario.empty_state) as [s |] eqn:Hrun;
    [| vm_compute in Hrun; discriminate].
  assert (Hl : Interleaving.loading (Interleaving.pc_of s 0%nat) = Some (7, 0%nat)).
  { vm_compute in Hrun. injection Hrun as <-. vm_compute. reflexivity. }
  exact (InterleavingProperties.loader_calls_serialized_per_entry
           Scenario.one_miss Scenario.cacheTestTimeouts AutomaticReloadDisabled
           Scenario.source s 0%nat 0%nat 7 7 0%nat Hrun Hl Hl).
Defined.

(** * Further properties of the cache *)

Section GetProperties.

Context {K : Type} `{Countable K} {T : Type}.
Implicit Types (c : Cache K T) (entry e : cachedEntry T) (k ID : K).

Lemma cachedEntry_get_eq e :
  cachedEntry_get e = (value e, mkEntry (nextReload e) true (value e)).
Proof. destruct e as [nr [|] v]; reflexivity. Qed.

(** [Get] on an entry that is still fresh: the closed form. *)
Lemma Get_fresh_eq ID nowMillis c e :
  data c !! ID = Some e ->
  nowMillis < nextReload e ->
  Get ID nowMillis c =
  (value e,
   with_data (<[ID := mkEntry (nextReload e) true (value e)]> (data c))
     (metrics_do ReadsCount_Inc c)).
Proof.
  intros Hk Hfresh. unfold Get. rewrite Hk.
  apply Z.ltb_lt in Hfresh. rewrite Hfresh.
  unfold entry_get_in. rewrite cachedEntry_get_eq.
  unfold metrics_do. destruct (metrics c); reflexivity.
Qed.

(** [Get] when it calls the loader, on a miss ([found] is [None]) or on
    an entry that is due: the closed form. *)
Lemma Get_load_eq ID nowMillis c (found : option (cachedEntry T)) :
  data c !! ID = found ->
  (forall e, found = Some e -> nextReload e <= nowMillis) ->
  Get ID nowMillis c =
  let loaded := loadOneFunc c ID (loaderCalls c) in
  let init := match found with None => true | Some _ => false end in
  let done := cachedEntry_set (default newEntry found) (fst loaded) (snd loaded)
                nowMillis (timeouts c) init (rand c) in
  let ttl := fst (fst done) in
  let e1 := snd (fst done) in
  (value e1,
   mkCache (name c) (timeouts c) (loadOneFunc c) (automaticReload c)
     (metrics (count_lazy_load (snd loaded) (metrics_do ReadsCount_Inc c)))
     (if ttl >=? 0 then Push ID ttl :: ttlWatcher c else ttlWatcher c)
     (if decide (automaticReload c = AutomaticReloadDisabled) then reloadWatcher c
      else Push ID (mul64 (sub64 (nextReload e1) nowMillis) Millisecond)
             :: reloadWatcher c)
     (memSizeValue c)
     (<[ID := mkEntry (nextReload e1) true (value e1)]> (data c))
     (snd done)
     (loaderCalls c ++ ID :: nil)).
Proof.
  intros Hk Hdue. unfold Get. rewrite Hk.
  assert (Hstale : forall e, found = Some e -> (nowMillis <? nextReload e) = false).
  { intros e He. apply Z.ltb_ge. apply Hdue. exact He. }
  unfold call_loadOneFunc, entry_set_in, entry_get_in, setEntryWatchers,
    count_lazy_load, metrics_do, cachedEntry_get.
  destruct c as [nm tm ld mode met tw rw ms dt g calls]; simpl in *.
  destruct found as [e |]; [rewrite (Hstale e eq_refl) |];
    destruct met as [m |]; simpl;
    destruct (ld ID calls) as [v err]; simpl;
    destruct (cachedEntry_set _ v err nowMillis tm _ g)
      as [[ttl [nr1 acc1 v1]] g1]; simpl;
    destruct acc1; simpl;
    destruct (ttl >=? 0); simpl;
    destruct (decide (mode = AutomaticReloadDisabled)); simpl;
    destruct (is_generic_error err); simpl;
    rewrite !insert_insert_eq; reflexivity.
Qed.

(** The value [set] leaves in an entry and the duration it returns, by
    the kind of result the loader gave. *)
Lemma cachedEntry_set_value e (v : option T) err nowMillis timeouts init g :
  value (snd (fst (cachedEntry_set e v err nowMillis timeouts init g))) =
  match err with
  | None => v
  | Some er => if errors_Is_ErrNotFound er then None else value e
  end.
Proof.
  unfold cachedEntry_set. destruct err as [er |].
  - destruct (errors_Is_ErrNotFound er); simpl.
    + rewrite RandomizeDuration_eq. destruct (value e) eqn:Hv;
        rewrite set_end_eq; simpl; rewrite ?Hv; reflexivity.
    + destruct init; [rewrite RandomizeDuration_eq |]; rewrite set_end_eq; reflexivity.
  - rewrite RandomizeDuration_eq, set_end_eq. reflexivity.
Qed.

Lemma cachedEntry_set_nextReload e (v : option T) err nowMillis timeouts init g :
  exists g', nextReload (snd (fst (cachedEntry_set e v err nowMillis timeouts init g)))
  = add64 nowMillis
      (Milliseconds (jitter (ReloadInterval timeouts) (Randomizer timeouts) g')).
Proof.
  unfold cachedEntry_set. destruct err as [er |].
  - destruct (errors_Is_ErrNotFound er); simpl.
    + rewrite RandomizeDuration_eq. destruct (value e);
        rewrite set_end_eq; simpl; eauto.
    + destruct init; [rewrite RandomizeDuration_eq |]; rewrite set_end_eq; simpl; eauto.
  - rewrite RandomizeDuration_eq, set_end_eq. simpl. eauto.
Qed.

Lemma cachedEntry_set_generic_reload e (v : option T) err nowMillis timeouts g :
  is_generic_error err = true ->
  fst (fst (cachedEntry_set e v err nowMillis timeouts false g)) = -1.
Proof.
  destruct err as [er |]; simpl; [| discriminate].
  intros Hgen. unfold cachedEntry_set. rewrite Hgen. rewrite set_end_eq. reflexivity.
Qed.

(** X1. A read of an entry that is still fresh returns the cached value,
    marks the entry accessed and adds one to reads_count, the other
    counters staying as they were, and does nothing else: the loader is
    not called, no watcher is touched, the random source is not consulted
    and no other key changes. *)
Theorem Get_fresh_hit ID nowMillis c e :
  data c !! ID = Some e ->
  nowMillis < nextReload e ->
  let c' := snd (Get ID nowMillis c) in
  fst (Get ID nowMillis c) = value e /\
  data c' = <[ID := mkEntry (nextReload e) true (value e)]> (data c) /\
  loaderCalls c' = loaderCalls c /\
  ttlWatcher c' = ttlWatcher c /\ reloadWatcher c' = reloadWatcher c /\
  rand c' = rand c /\
  metrics c' =
    (fun m => mkMetrics (ItemsCount m) (AutomaticLoadCount m) (LazyLoadCount m)
                (ErrorLoadCount m) (ReadsCount m + 1)
                (ReceivedNatsInvalidations m) (MemoryUsage m)) <$> metrics c.
Proof.
  intros Hk Hfresh c'. subst c'. rewrite (Get_fresh_eq _ _ _ _ Hk Hfresh).
  unfold metrics_do. destruct (metrics c) eqn:Hm; simpl; rewrite ?Hm; repeat split.
Qed.

(** X2. On a miss [Get] calls the loader once and returns the loaded
    pointer when the loader reports no error, and nil whenever it reports
    one, whatever pointer came with the error; the entry it leaves in the
    index holds what was returned and is marked accessed. *)
Theorem Get_miss ID nowMillis c (v : option T) err :
  data c !! ID = None ->
  loadOneFunc c ID (loaderCalls c) = (v, err) ->
  let returned := match err with None => v | Some _ => None end in
  fst (Get ID nowMillis c) = returned /\
  loaderCalls (snd (Get ID nowMillis c)) = loaderCalls c ++ ID :: nil /\
  exists reload,
    data (snd (Get ID nowMillis c)) !! ID = Some (mkEntry reload true returned).
Proof.
  intros Hk Hload returned.
  rewrite (Get_load_eq ID nowMillis c None Hk) by (intros e0 [=]).
  cbv zeta. rewrite Hload. simpl.
  assert (Hv : value (snd (fst (cachedEntry_set newEntry v err nowMillis
                                  (timeouts c) true (rand c)))) = returned).
  { rewrite cachedEntry_set_value. subst returned.
    destruct err as [er |]; [| reflexivity].
    destruct (errors_Is_ErrNotFound er); reflexivity. }
  rewrite Hv. split; [reflexivity |]. split; [reflexivity |].
  eexists. apply lookup_insert_eq.
Qed.

(** X3. Serve stale.  When an entry is due and the loader fails with an
    error other than NotFound, [Get] returns the value the entry held
    before, hands nothing to the TTL watcher, and adds one to each of
    reads_count, lazy_loads and error_loads, the other counters staying
    as they were. *)
Theorem Get_stale_error_serves_old ID nowMillis c e (v : option T) err :
  data c !! ID = Some e ->
  nextReload e <= nowMillis ->
  loadOneFunc c ID (loaderCalls c) = (v, err) ->
  is_generic_error err = true ->
  let c' := snd (Get ID nowMillis c) in
  fst (Get ID nowMillis c) = value e /\
  ttlWatcher c' = ttlWatcher c /\
  loaderCalls c' = loaderCalls c ++ ID :: nil /\
  metrics c' =
    (fun m => mkMetrics (ItemsCount m) (AutomaticLoadCount m) (LazyLoadCount m + 1)
                (ErrorLoadCount m + 1) (ReadsCount m + 1)
                (ReceivedNatsInvalidations m) (MemoryUsage m)) <$> metrics c.
Proof.
  intros Hk Hdue Hload Hgen c'. subst c'.
  rewrite (Get_load_eq ID nowMillis c (Some e) Hk)
    by (intros e0 [= <-]; exact Hdue).
  cbv zeta. rewrite Hload. simpl.
  rewrite cachedEntry_set_value, cachedEntry_set_generic_reload by exact Hgen.
  simpl. split.
  { destruct err as [er |]; simpl in Hgen; [| discriminate].
    apply negb_true_iff in Hgen. rewrite Hgen. reflexivity. }
  split; [reflexivity |]. split; [reflexivity |].
  unfold count_lazy_load, metrics_do.
  destruct c as [nm tm ld mode met tw rw ms dt g calls]; simpl.
  destruct met as [m |]; simpl; [| reflexivity]. rewrite Hgen. reflexivity.
Qed.

(** What [Get] leaves under the key, on every path. *)
Lemma Get_entry ID nowMillis c :
  exists reload,
    data (snd (Get ID nowMillis c)) !! ID
    = Some (mkEntry reload true (fst (Get ID nowMillis c))).
Proof.
  destruct (data c !! ID) as [e |] eqn:Hk.
  - destruct (Z.lt_ge_cases nowMillis (nextReload e)) as [Hfresh | Hdue].
    + rewrite (Get_fresh_eq _ _ _ _ Hk Hfresh). simpl.
      eexists. unfold metrics_do. destruct (metrics c); simpl; apply lookup_insert_eq.
    + rewrite (Get_load_eq ID nowMillis c (Some e) Hk)
        by (intros e0 [= <-]; exact Hdue).
      cbv zeta. simpl. eexists. apply lookup_insert_eq.
  - rewrite (Get_load_eq ID nowMillis c None Hk) by (intros e0 [=]).
    cbv zeta. simpl. eexists. apply lookup_insert_eq.
Qed.

(** X4. What [Get] returns is what the cache then holds: after any
    [Get] the index has an entry for the key, marked accessed, whose
    value is the pointer that was returned. *)
Theorem Get_returns_cached ID nowMillis c :
  exists e',
    data (snd (Get ID nowMillis c)) !! ID = Some e' /\
    value e' = fst (Get ID nowMillis c) /\
    accessed e' = true.
Proof.
  destruct (Get_entry ID nowMillis c) as [reload Hr].
  eexists. split; [exact Hr |]. split; reflexivity.
Qed.

(** X5. A second [Get] while the entry is fresh returns what the first
    returned and changes nothing but the read counter. *)
Theorem Get_repeat ID nowMillis nowMillis' c e1 :
  data (snd (Get ID nowMillis c)) !! ID = Some e1 ->
  nowMillis' < nextReload e1 ->
  Get ID nowMillis' (snd (Get ID nowMillis c)) =
  (fst (Get ID nowMillis c), metrics_do ReadsCount_Inc (snd (Get ID nowMillis c))).
Proof.
  intros Hk Hfresh.
  destruct (Get_entry ID nowMillis c) as [reload Hr].
  rewrite Hr in Hk. injection Hk as <-. simpl in Hfresh.
  rewrite (Get_fresh_eq _ _ _ _ Hr Hfresh). simpl.
  rewrite insert_id by exact Hr.
  f_equal. unfold metrics_do, with_data, with_metrics.
  destruct (snd (Get ID nowMillis c)) as [nm tm ld mode met tw rw ms dt g calls]; simpl.
  destruct met; reflexivity.
Qed.

(** X6. [Get] touches no other key: the key set grows by the key read
    at most, and every other key keeps its entry. *)
Theorem Get_other_keys ID nowMillis c :
  dom (data (snd (Get ID nowMillis c))) = {[ID]} ∪ dom (data c) /\
  forall k, k <> ID -> data (snd (Get ID nowMillis c)) !! k = data c !! k.
Proof.
  assert (Hdata : exists e', data (snd (Get ID nowMillis c)) = <[ID := e']> (data c)).
  { destruct (data c !! ID) as [e |] eqn:Hk.
    - destruct (Z.lt_ge_cases nowMillis (nextReload e)) as [Hfresh | Hdue].
      + rewrite (Get_fresh_eq _ _ _ _ Hk Hfresh). simpl.
        eexists. unfold metrics_do. destruct (metrics c); reflexivity.
      + rewrite (Get_load_eq ID nowMillis c (Some e) Hk)
          by (intros e0 [= <-]; exact Hdue).
        cbv zeta. simpl. eexists. reflexivity.
    - rewrite (Get_load_eq ID nowMillis c None Hk) by (intros e0 [=]).
      cbv zeta. simpl. eexists. reflexivity. }
  destruct Hdata as [e' ->]. split.
  - apply dom_insert_L.
  - intros k Hne. apply lookup_insert_ne. congruence.
Qed.

(** X7. [Get] calls the loader exactly when the key is absent or its
    entry is due ([nextReload <= now]: at the deadline itself the entry
    is stale), and then once, with the key. *)
Theorem Get_loader_calls ID nowMillis c :
  loaderCalls (snd (Get ID nowMillis c)) =
  match data c !! ID with
  | Some e => if nowMillis <? nextReload e then loaderCalls c
              else loaderCalls c ++ ID :: nil
  | None => loaderCalls c ++ ID :: nil
  end.
Proof.
  destruct (data c !! ID) as [e |] eqn:Hk.
  - destruct (Z.ltb_spec nowMillis (nextReload e)) as [Hfresh | Hdue].
    + rewrite (Get_fresh_eq _ _ _ _ Hk Hfresh). simpl.
      unfold metrics_do. destruct (metrics c); reflexivity.
    + rewrite (Get_load_eq ID nowMillis c (Some e) Hk)
        by (intros e0 [= <-]; exact Hdue).
      reflexivity.
  - rewrite (Get_load_eq ID nowMillis c None Hk) by (intros e0 [=]). reflexivity.
Qed.

Lemma Get_items_count_eq ID nowMillis c :
  ItemsCount <$> metrics (snd (Get ID nowMillis c)) = ItemsCount <$> metrics c.
Proof.
  destruct (data c !! ID) as [e |] eqn:Hk.
  - destruct (Z.lt_ge_cases nowMillis (nextReload e)) as [Hfresh | Hdue].
    + rewrite (Get_fresh_eq _ _ _ _ Hk Hfresh). simpl.
      unfold metrics_do. destruct (metrics c) eqn:Hm; simpl; rewrite ?Hm; reflexivity.
    + rewrite (Get_load_eq ID nowMillis c (Some e) Hk)
        by (intros e0 [= <-]; exact Hdue).
      cbv zeta. simpl. unfold count_lazy_load, metrics_do.
      destruct c as [nm tm ld mode met tw rw ms dt g calls]; simpl.
      destruct met as [m |]; simpl; [| reflexivity].
      destruct (is_generic_error _); reflexivity.
  - rewrite (Get_load_eq ID nowMillis c None Hk) by (intros e0 [=]).
    cbv zeta. simpl. unfold count_lazy_load, metrics_do.
    destruct c as [nm tm ld mode met tw rw ms dt g calls]; simpl.
    destruct met as [m |]; simpl; [| reflexivity].
    destruct (is_generic_error _); reflexivity.
Qed.

(** X8. [Get] never moves items_count, not even when it adds a key,
    while [Remove] decrements it: a miss followed by [Remove] leaves the
    index as it was and the gauge one lower than before. *)
Theorem Get_Remove_items_count ID nowMillis c :
  ItemsCount <$> metrics (snd (Get ID nowMillis c)) = ItemsCount <$> metrics c /\
  (data c !! ID = None ->
   data (Remove ID (snd (Get ID nowMillis c))) = data c /\
   ItemsCount <$> metrics (Remove ID (snd (Get ID nowMillis c)))
   = (fun n => n - 1) <$> (ItemsCount <$> metrics c)).
Proof.
  split; [apply Get_items_count_eq |].
  intros Hk.
  pose proof (Get_items_count_eq ID nowMillis c) as Hcount.
  destruct (Get_entry ID nowMillis c) as [reload Hr].
  assert (Hd : exists e', data (snd (Get ID nowMillis c)) = <[ID := e']> (data c)).
  { rewrite (Get_load_eq ID nowMillis c None Hk) by (intros e0 [=]).
    cbv zeta. simpl. eexists. reflexivity. }
  destruct Hd as [e' Hd].
  unfold Remove. rewrite Hr.
  destruct (snd (Get ID nowMillis c)) as [nm tm ld mode met tw rw ms dt g calls];
    simpl in *.
  unfold metrics_do. simpl. subst dt. split.
  - destruct met; simpl; apply delete_insert_id; exact Hk.
  - rewrite <- Hcount. destruct met; reflexivity.
Qed.

End GetProperties.

(** ** Removal, eviction and late events *)

Section RemoveProperties.

Context {K : Type} `{Countable K} {T : Type}.
Implicit Types (c : Cache K T) (entry e : cachedEntry T) (k ID : K).

Lemma Remove_absent ID c : data c !! ID = None -> Remove ID c = c.
Proof. intros Hk. unfold Remove. rewrite Hk. reflexivity. Qed.

Lemma Remove_data ID c : data (Remove ID c) = delete ID (data c).
Proof.
  unfold Remove. destruct (data c !! ID) eqn:Hk.
  - unfold metrics_do. simpl. destruct (metrics c); reflexivity.
  - symmetry. apply delete_id. exact Hk.
Qed.

(** X9. After [Remove] the key is gone from the index and nothing is
    pending for it in either watcher; every other key keeps its entry;
    removing a key that is not there, in particular removing twice,
    changes nothing. *)
Theorem Remove_gone ID c :
  data (Remove ID c) !! ID = None /\
  (forall k, k <> ID -> data (Remove ID c) !! k = data c !! k) /\
  (is_Some (data c !! ID) ->
   Prison_pending (ttlWatcher (Remove ID c)) ID = None /\
   Prison_pending (reloadWatcher (Remove ID c)) ID = None) /\
  (data c !! ID = None -> Remove ID c = c) /\
  Remove ID (Remove ID c) = Remove ID c.
Proof.
  split; [rewrite Remove_data; apply lookup_delete_eq |].
  split; [intros k Hne; rewrite Remove_data; apply lookup_delete_ne; congruence |].
  split.
  { intros [e Hk]. unfold Remove. rewrite Hk. unfold metrics_do. simpl.
    destruct (metrics c); simpl; rewrite !decide_True by reflexivity; split; reflexivity. }
  split; [apply Remove_absent |].
  apply Remove_absent. rewrite Remove_data. apply lookup_delete_eq.
Qed.

(** X10. An event that arrives for a key after it has been removed is
    dropped: a turn of the TTL watcher, a turn of the reload watcher and
    an [Invalidate] all leave the cache as [Remove] left it. *)
Theorem late_events_after_Remove ID nowMillis c :
  ttlWatcher_fired ID (Remove ID c) = Remove ID c /\
  reloadWatcher_fired ID nowMillis (Remove ID c) = Remove ID c /\
  Invalidate ID (Remove ID c) = Remove ID c.
Proof.
  assert (Hgone : data (Remove ID c) !! ID = None).
  { rewrite Remove_data. apply lookup_delete_eq. }
  unfold ttlWatcher_fired, reloadWatcher_fired, Invalidate.
  rewrite Hgone. repeat split.
Qed.

(** X11. Eviction by the TTL watcher is [Remove] without the call of
    [Drop] on the TTL watcher: for a key of the index the two results
    differ in that one call only, and the evicted key is gone. *)
Theorem ttlWatcher_fired_is_Remove ID c :
  is_Some (data c !! ID) ->
  Remove ID c = with_ttlWatcher (Drop ID :: ttlWatcher c) (ttlWatcher_fired ID c) /\
  ttlWatcher (ttlWatcher_fired ID c) = ttlWatcher c /\
  data (ttlWatcher_fired ID c) !! ID = None.
Proof.
  intros [e Hk]. unfold Remove, ttlWatcher_fired. rewrite Hk.
  unfold metrics_do, Prison_Drop.
  destruct c as [nm tm ld mode met tw rw ms dt g calls]; simpl in *.
  destruct met; simpl; repeat split; apply lookup_delete_eq.
Qed.

End RemoveProperties.

(** ** Watchers, preloading and invalidation *)

Section WatcherProperties.

Context {K : Type} `{Countable K} {T : Type}.
Implicit Types (c : Cache K T) (entry e : cachedEntry T) (k ID : K).

(** [set] always leaves the accessed flag false. *)
Lemma cachedEntry_set_accessed e (v : option T) err nowMillis timeouts init g :
  accessed (snd (fst (cachedEntry_set e v err nowMillis timeouts init g))) = false.
Proof.
  unfold cachedEntry_set. destruct err as [er |].
  - destruct (errors_Is_ErrNotFound er); simpl.
    + rewrite RandomizeDuration_eq. destruct (value e);
        rewrite set_end_eq; reflexivity.
    + destruct init; [rewrite RandomizeDuration_eq |]; rewrite set_end_eq; reflexivity.
  - rewrite RandomizeDuration_eq, set_end_eq. reflexivity.
Qed.

(** The locked part of a turn of the reload watcher: the closed form. *)
Lemma reloadWatcher_reload_eq ID entry nowMillis c :
  reloadWatcher_reload ID entry nowMillis c =
  let loaded := loadOneFunc c ID (loaderCalls c) in
  let done := cachedEntry_set entry (fst loaded) (snd loaded) nowMillis
                (timeouts c) false (rand c) in
  let ttl := if negb (accessed entry) then -1 else fst (fst done) in
  let e1 := snd (fst done) in
  mkCache (name c) (timeouts c) (loadOneFunc c) (automaticReload c)
    (metrics (count_automatic_load (snd loaded) c))
    (if ttl >=? 0 then Push ID ttl :: ttlWatcher c else ttlWatcher c)
    (if decide (automaticReload c = AutomaticReloadDisabled) then reloadWatcher c
     else Push ID (mul64 (sub64 (nextReload e1) nowMillis) Millisecond)
            :: reloadWatcher c)
    (memSizeValue c) (<[ID := e1]> (data c)) (snd done)
    (loaderCalls c ++ ID :: nil).
Proof.
  unfold reloadWatcher_reload, call_loadOneFunc, entry_set_in, setEntryWatchers,
    count_automatic_load, metrics_do.
  destruct c as [nm tm ld mode met tw rw ms dt g calls]; simpl.
  destruct (ld ID calls) as [v err]; simpl.
  destruct (cachedEntry_set entry v err nowMillis tm false g) as [[ttl e1] g1]; simpl.
  destruct (accessed entry); simpl;
    destruct met as [m |]; simpl;
    destruct (ttl >=? 0); simpl;
    destruct (decide (mode = AutomaticReloadDisabled)); simpl;
    destruct (is_generic_error err); reflexivity.
Qed.

(** A turn of the reload watcher on an entry that has not been accessed
    hands nothing to the TTL watcher. *)
Lemma reloadWatcher_fired_unaccessed_ttl ID nowMillis c e :
  data c !! ID = Some e -> accessed e = false ->
  ttlWatcher (reloadWatcher_fired ID nowMillis c) = ttlWatcher c.
Proof.
  intros Hk Hacc. unfold reloadWatcher_fired. rewrite Hk, Hacc.
  destruct (bool_decide _ && negb false); [reflexivity |].
  rewrite reloadWatcher_reload_eq. cbv zeta. rewrite Hacc. reflexivity.
Qed.

(** X12. Two turns of the reload watcher for a key with no read in
    between.  Whatever the mode, the second turn hands nothing to the TTL
    watcher: an entry that is only refreshed keeps the deadline of its
    last accessed load.  In accessed-only mode the second turn does
    nothing at all, so an entry nobody reads is reloaded at most once. *)
Theorem consecutive_reload_turns ID now1 now2 c :
  ttlWatcher (reloadWatcher_fired ID now2 (reloadWatcher_fired ID now1 c))
  = ttlWatcher (reloadWatcher_fired ID now1 c) /\
  (automaticReload c = AutomaticReloadAccessedEntries ->
   reloadWatcher_fired ID now2 (reloadWatcher_fired ID now1 c)
   = reloadWatcher_fired ID now1 c).
Proof.
  assert (Hcases :
    reloadWatcher_fired ID now1 c = c /\
      (data c !! ID = None \/
       exists e, data c !! ID = Some e /\ accessed e = false /\
                 automaticReload c = AutomaticReloadAccessedEntries)
    \/ exists e1, data (reloadWatcher_fired ID now1 c) !! ID = Some e1 /\
                  accessed e1 = false /\
                  automaticReload (reloadWatcher_fired ID now1 c) = automaticReload c).
  { unfold reloadWatcher_fired.
    destruct (data c !! ID) as [e |] eqn:Hk; [| left; split; [reflexivity | left; reflexivity]].
    destruct (bool_decide (automaticReload c = AutomaticReloadAccessedEntries)
              && negb (accessed e)) eqn:Hskip.
    - left. split; [reflexivity |]. right. exists e.
      apply andb_true_iff in Hskip as [Hmode Hacc].
      apply bool_decide_eq_true_1 in Hmode. apply negb_true_iff in Hacc. auto.
    - right. rewrite reloadWatcher_reload_eq. cbv zeta. simpl.
      eexists. split; [apply lookup_insert_eq |].
      split; [apply cachedEntry_set_accessed | reflexivity]. }
  destruct Hcases as [[Hsame Hwhy] | (e1 & Hk1 & Hacc1 & Hmode1)].
  - rewrite Hsame. destruct Hwhy as [Hnone | (e & Hk & Hacc & Hmode)].
    + unfold reloadWatcher_fired. rewrite Hnone. split; reflexivity.
    + unfold reloadWatcher_fired. rewrite Hk, Hacc, Hmode.
      rewrite bool_decide_eq_true_2 by reflexivity. split; reflexivity.
  - split.
    + apply (reloadWatcher_fired_unaccessed_ttl _ _ _ _ Hk1 Hacc1).
    + intros Hmode. unfold reloadWatcher_fired at 1.
      rewrite Hk1, Hacc1, Hmode1, Hmode.
      rewrite bool_decide_eq_true_2 by reflexivity. reflexivity.
Qed.

Lemma addLoadedEntry_reloadWatcher (le : LoadedEntry K T) nowMillis c :
  automaticReload c = AutomaticReloadDisabled ->
  reloadWatcher (addLoadedEntry le nowMillis c) = reloadWatcher c.
Proof.
  intros Hmode. unfold addLoadedEntry.
  destruct (cachedEntry_set _ _ _ _ _ _ _) as [[ttl entry] g].
  unfold setEntryWatchers, metrics_do.
  destruct c as [nm tm ld mode met tw rw ms dt g0 calls]; simpl in *. subst mode.
  destruct (_ && _); simpl; destruct met; simpl;
    destruct (ttl >=? 0); reflexivity.
Qed.

(** X13. With automatic reload disabled nothing is ever pushed on the
    reload watcher: [Get], [Invalidate] and the preload path leave it
    as it was. *)
Theorem reload_disabled_never_pushes ID nowMillis (le : LoadedEntry K T) c :
  automaticReload c = AutomaticReloadDisabled ->
  reloadWatcher (snd (Get ID nowMillis c)) = reloadWatcher c /\
  reloadWatcher (Invalidate ID c) = reloadWatcher c /\
  reloadWatcher (addLoadedEntry le nowMillis c) = reloadWatcher c.
Proof.
  intros Hmode. split; [| split].
  - destruct (data c !! ID) as [e |] eqn:Hk.
    + destruct (Z.lt_ge_cases nowMillis (nextReload e)) as [Hfresh | Hdue].
      * rewrite (Get_fresh_eq _ _ _ _ Hk Hfresh). simpl.
        unfold metrics_do. destruct (metrics c); reflexivity.
      * rewrite (Get_load_eq ID nowMillis c (Some e) Hk)
          by (intros e0 [= <-]; exact Hdue).
        cbv zeta. simpl. rewrite Hmode. reflexivity.
    + rewrite (Get_load_eq ID nowMillis c None Hk) by (intros e0 [=]).
      cbv zeta. simpl. rewrite Hmode. reflexivity.
  - unfold Invalidate. destruct (data c !! ID); [| reflexivity]. simpl.
    rewrite Hmode. reflexivity.
  - apply addLoadedEntry_reloadWatcher. exact Hmode.
Qed.

(** X14. With automatic reload enabled, a [Get] that loads (the key is
    absent or its entry is due) arms the reload watcher for the key with
    the time left until the [nextReload] of the entry it leaves in the
    index, in nanoseconds with int64 arithmetic. *)
Theorem Get_arms_reload_watcher ID nowMillis c :
  automaticReload c <> AutomaticReloadDisabled ->
  (forall e, data c !! ID = Some e -> nextReload e <= nowMillis) ->
  exists e1,
    data (snd (Get ID nowMillis c)) !! ID = Some e1 /\
    Prison_pending (reloadWatcher (snd (Get ID nowMillis c))) ID
    = Some (mul64 (sub64 (nextReload e1) nowMillis) Millisecond).
Proof.
  intros Hmode Hdue.
  rewrite (Get_load_eq ID nowMillis c (data c !! ID) eq_refl Hdue).
  cbv zeta. simpl. eexists. split; [apply lookup_insert_eq |].
  destruct (decide (automaticReload c = AutomaticReloadDisabled)); [contradiction |].
  simpl. rewrite decide_True by reflexivity. reflexivity.
Qed.

Lemma addLoadedEntry_dom (le : LoadedEntry K T) nowMillis c :
  dom (data (addLoadedEntry le nowMillis c)) = {[le_ID le]} ∪ dom (data c).
Proof.
  unfold addLoadedEntry.
  destruct (cachedEntry_set _ _ _ _ _ _ _) as [[ttl entry] g].
  unfold setEntryWatchers, metrics_do.
  destruct c as [nm tm ld mode met tw rw ms dt g0 calls]; simpl.
  destruct (bool_decide (is_Some (dt !! le_ID le))) eqn:Hin; simpl.
  - apply bool_decide_eq_true_1 in Hin.
    assert (Hsub : {[le_ID le]} ∪ dom dt = dom dt).
    { apply elem_of_dom in Hin. apply subseteq_union_1_L.
      apply singleton_subseteq_l. exact Hin. }
    destruct (is_generic_error (le_Err le)); simpl.
    + destruct met; simpl; symmetry; exact Hsub.
    + destruct met; simpl; destruct (ttl >=? 0); simpl; destruct (decide _); simpl;
        apply dom_insert_L.
  - destruct met; simpl; destruct (ttl >=? 0); simpl; destruct (decide _); simpl;
      apply dom_insert_L.
Qed.

(** X15. Preloading only adds keys: after the preload channel has been
    drained the key set of the index is what it was together with the
    keys of all the items, whether an item carried a value, NotFound or
    another error. *)
Theorem startPreloading_dom (preloadChan : list (LoadedEntry K T * Z)) c :
  dom (data (startPreloading preloadChan c))
  = list_to_set ((fun item => le_ID (fst item)) <$> preloadChan) ∪ dom (data c).
Proof.
  unfold startPreloading. revert c.
  induction preloadChan as [| [le t] rest IH]; intros c; simpl.
  - symmetry. apply (left_id_L ∅ (∪)).
  - rewrite IH, addLoadedEntry_dom.
    rewrite (assoc_L (∪)). f_equal. apply (comm_L (∪)).
Qed.

(** X16. [Invalidate] forces the next read to reload: for a key of the
    index and a clock that is not before the epoch, the [Get] that
    follows calls the loader, however fresh the entry was. *)
Theorem Invalidate_then_Get_reloads ID nowMillis c e :
  data c !! ID = Some e ->
  0 <= nowMillis ->
  loaderCalls (snd (Get ID nowMillis (Invalidate ID c))) = loaderCalls c ++ ID :: nil.
Proof.
  intros Hk Hnow.
  assert (Hinv : data (Invalidate ID c) !! ID = Some (store_nextReload 0 e) /\
                 loaderCalls (Invalidate ID c) = loaderCalls c).
  { unfold Invalidate. rewrite Hk. simpl.
    destruct (decide _); simpl; split; try apply lookup_insert_eq; reflexivity. }
  destruct Hinv as [Hk' Hcalls].
  rewrite (Get_load_eq ID nowMillis _ _ Hk')
    by (intros e0 [= <-]; exact Hnow).
  cbv zeta. simpl. rewrite Hcalls. reflexivity.
Qed.

(** X17. A preloaded value is served without the loader: after
    [addLoadedEntry] of an item without error, a [Get] of its key before
    the entry's [nextReload] returns the item's value and adds no loader
    call. *)
Theorem preloaded_value_served (le : LoadedEntry K T) nowMillis nowMillis' c :
  le_Err le = None ->
  let r := Randomizer (timeouts c) in
  let reload :=
    add64 nowMillis
      (Milliseconds (jitter (ReloadInterval (timeouts c)) r
                       (jitter_next (TTL (timeouts c)) r (rand c)))) in
  let c1 := addLoadedEntry le nowMillis c in
  data c1 !! le_ID le = Some (mkEntry reload false (le_Value le)) /\
  (nowMillis' < reload ->
   fst (Get (le_ID le) nowMillis' c1) = le_Value le /\
   loaderCalls (snd (Get (le_ID le) nowMillis' c1)) = loaderCalls c).
Proof.
  intros Herr r reload c1.
  assert (Hgen : is_generic_error (le_Err le) = false) by (rewrite Herr; reflexivity).
  assert (Hc1 : data c1 !! le_ID le = Some (mkEntry reload false (le_Value le)) /\
                loaderCalls c1 = loaderCalls c).
  { subst c1. rewrite addLoadedEntry_install by (right; exact Hgen).
    cbv zeta. rewrite Herr. unfold cachedEntry_set.
    rewrite RandomizeDuration_eq, set_end_eq. simpl.
    unfold setEntryWatchers, metrics_do.
    destruct c as [nm tm ld mode met tw rw ms dt g0 calls]; simpl.
    destruct met; simpl; destruct (_ >=? 0); simpl; destruct (decide _); simpl;
      split; try apply lookup_insert_eq; reflexivity. }
  destruct Hc1 as [Hk Hcalls]. split; [exact Hk |].
  intros Hfresh.
  rewrite (Get_fresh_eq _ _ _ _ Hk Hfresh). simpl.
  split; [reflexivity |].
  unfold metrics_do. destruct (metrics c1); simpl; exact Hcalls.
Qed.

Lemma Milliseconds_small (d : Duration) :
  - Millisecond < d < Millisecond -> Milliseconds d = 0.
Proof.
  unfold Milliseconds, Millisecond. intros [Hlo Hhi].
  destruct (Z.le_gt_cases 0 d) as [Hpos | Hneg].
  - apply Z.quot_small. lia.
  - replace d with (- (- d)) by lia. rewrite Z.quot_opp_l by lia.
    rewrite Z.quot_small by lia. reflexivity.
Qed.

(** X18. A reload interval shorter than one millisecond disables
    caching.  With [Randomizer] 0 and such an interval (which
    [Timeouts.check] accepts), an entry loaded at [nowMillis] is due at
    [nowMillis] already: the [Get] that loads it leaves [nextReload] at
    [nowMillis], and every later [Get] calls the loader again. *)
Theorem sub_millisecond_reload_interval ID nowMillis nowMillis' c :
  Randomizer (timeouts c) = 0%float ->
  - Millisecond < ReloadInterval (timeouts c) < Millisecond ->
  in_int64 nowMillis ->
  (forall e, data c !! ID = Some e -> nextReload e <= nowMillis) ->
  nowMillis <= nowMillis' ->
  let c1 := snd (Get ID nowMillis c) in
  (exists e1, data c1 !! ID = Some e1 /\ nextReload e1 = nowMillis) /\
  loaderCalls (snd (Get ID nowMillis' c1)) = loaderCalls c ++ ID :: ID :: nil.
Proof.
  intros Hr Hri Hnow Hdue Hlater c1.
  assert (Hc1 : exists v, data c1 !! ID = Some (mkEntry nowMillis true v) /\
                          loaderCalls c1 = loaderCalls c ++ ID :: nil).
  { subst c1. rewrite (Get_load_eq ID nowMillis c (data c !! ID) eq_refl Hdue).
    cbv zeta. simpl.
    destruct (cachedEntry_set_nextReload (default newEntry (data c !! ID))
                (fst (loadOneFunc c ID (loaderCalls c)))
                (snd (loadOneFunc c ID (loaderCalls c))) nowMillis (timeouts c)
                (match data c !! ID with None => true | Some _ => false end)
                (rand c)) as [g' Hnr].
    rewrite Hnr. unfold jitter. rewrite Hr, RandomizeDuration_zero. simpl.
    rewrite Milliseconds_small by exact Hri.
    unfold add64. rewrite Z.add_0_r, wrap64_in_range by exact Hnow.
    eexists. split; [apply lookup_insert_eq | reflexivity]. }
  destruct Hc1 as (v & Hk1 & Hcalls). split.
  - eexists. split; [exact Hk1 | reflexivity].
  - rewrite (Get_load_eq ID nowMillis' c1 _ Hk1)
      by (intros e0 [= <-]; exact Hlater).
    cbv zeta. simpl. rewrite Hcalls. rewrite <- app_assoc. reflexivity.
Qed.

End WatcherProperties.

(** ** Memory size *)

Section MemsizeProperties.

Context {K : Type} `{Countable K} {T : Type}.
Implicit Types (c : Cache K T) (sizer : Sizer T) (e : cachedEntry T).

Lemma wrapU64_add_swap (size a b : Z) :
  wrapU64 (wrapU64 (size + a) + b) = wrapU64 (wrapU64 (size + b) + a).
Proof.
  unfold wrapU64. rewrite !Z.add_mod_idemp_l by lia. f_equal. lia.
Qed.

(** The sizing loops do not depend on the order of the entries. *)
Lemma sum_entries_Permutation sizer (l l' : list (cachedEntry T)) :
  l ≡ₚ l' -> forall size, sum_entries sizer l size = sum_entries sizer l' size.
Proof.
  induction 1 as [| x l l' _ IH | x y l | l l' l'' _ IH1 _ IH2]; intros size; simpl.
  - reflexivity.
  - destruct (value x) as [v |]; [| apply IH].
    destruct (memsize_Entry sizer v); simpl; [apply IH | reflexivity].
  - destruct (value x) as [vx |], (value y) as [vy |]; try reflexivity.
    destruct (memsize_Entry sizer vx) as [a |], (memsize_Entry sizer vy) as [b |];
      simpl; try reflexivity.
    rewrite wrapU64_add_swap. reflexivity.
  - rewrite IH1. apply IH2.
Qed.

Lemma sum_Entry_Permutation sizer (l l' : list T) :
  l ≡ₚ l' -> forall size, sum_Entry sizer l size = sum_Entry sizer l' size.
Proof.
  induction 1 as [| x l l' _ IH | x y l | l l' l'' _ IH1 _ IH2]; intros size; simpl.
  - reflexivity.
  - destruct (memsize_Entry sizer x); simpl; [apply IH | reflexivity].
  - destruct (memsize_Entry sizer x) as [a |], (memsize_Entry sizer y) as [b |];
      simpl; try reflexivity.
    rewrite wrapU64_add_swap. reflexivity.
  - rewrite IH1. apply IH2.
Qed.

(** [float64(size)] is exact up to 2^53 and rounds to even above; the
    figure of the package's memory test. *)
Example float64_of_uint64_values :
  float64_of_uint64 1100 = 1100 /\
  float64_of_uint64 (2 ^ 53 + 1) = 2 ^ 53 /\
  float64_of_uint64 (2 ^ 64 - 1) = 2 ^ 64.
Proof. vm_compute. repeat split. Qed.

(** X19. The order in which Go ranges over the map does not matter to
    [updateMemsize]: whatever the order in which the entries are listed,
    the loop gives the same figure, or panics all the same. *)
Theorem updateMemsize_any_order sizer c (entries : list (cachedEntry T)) :
  entries ≡ₚ snd <$> map_to_list (data c) ->
  updateMemsize sizer c =
  match sum_entries sizer entries 0 with
  | None => c
  | Some size =>
      metrics_do (MemoryUsage_Set (float64_of_uint64 size)) (with_memSizeValue size c)
  end.
Proof.
  intros Hperm. unfold updateMemsize.
  rewrite (sum_entries_Permutation sizer _ _ Hperm 0). reflexivity.
Qed.

Lemma sum_entries_panic sizer (l : list (cachedEntry T)) e v :
  e ∈ l -> value e = Some v -> memsize_Entry sizer v = None ->
  forall size, sum_entries sizer l size = None.
Proof.
  intros Hin Hv Hpanic. induction l as [| x l IH]; intros size.
  - inversion Hin.
  - simpl. apply elem_of_cons in Hin as [<- | Hin].
    + rewrite Hv, Hpanic. reflexivity.
    + destruct (value x) as [vx |]; [| apply IH; exact Hin].
      destruct (memsize_Entry sizer vx); simpl; [apply IH; exact Hin | reflexivity].
Qed.

Lemma sum_entries_no_value sizer (l : list (cachedEntry T)) :
  (forall e, e ∈ l -> value e = None) ->
  forall size, sum_entries sizer l size = Some size.
Proof.
  induction l as [| x l IH]; intros Hall size; [reflexivity |].
  simpl. rewrite (Hall x) by (left). apply IH.
  intros e He. apply Hall. right. exact He.
Qed.

(** X20. The fault barrier of [updateMemsize], and what does not
    count.  If sizing panics on the value of any one entry, the cache is
    left exactly as it was, the previous figure included.  Entries
    without a value (a cached NotFound, a failed first load) count for
    nothing: when no entry has a value the figure is 0.  In every case
    the index, the watchers and the loader record are untouched. *)
Theorem updateMemsize_barrier sizer c :
  ((exists k e v, data c !! k = Some e /\ value e = Some v /\
                  memsize_Entry sizer v = None) ->
   updateMemsize sizer c = c) /\
  ((forall k e, data c !! k = Some e -> value e = None) ->
   memSizeValue (updateMemsize sizer c) = 0) /\
  data (updateMemsize sizer c) = data c /\
  ttlWatcher (updateMemsize sizer c) = ttlWatcher c /\
  reloadWatcher (updateMemsize sizer c) = reloadWatcher c /\
  loaderCalls (updateMemsize sizer c) = loaderCalls c.
Proof.
  split; [| split].
  - intros (k & e & v & Hk & Hv & Hpanic). unfold updateMemsize.
    rewrite (sum_entries_panic sizer _ e v); [reflexivity | | exact Hv | exact Hpanic].
    apply list_elem_of_fmap. exists (k, e). split; [reflexivity |].
    apply elem_of_map_to_list. exact Hk.
  - intros Hnone. unfold updateMemsize.
    rewrite sum_entries_no_value.
    + unfold metrics_do. simpl. destruct (metrics c); reflexivity.
    + intros e He. apply list_elem_of_fmap in He as ([k e'] & -> & Hin).
      apply elem_of_map_to_list in Hin. eapply Hnone. exact Hin.
  - unfold updateMemsize. destruct (sum_entries _ _ _); [| repeat split].
    unfold metrics_do. simpl. destruct (metrics c); repeat split.
Qed.

Lemma sum_entries_omap sizer (l : list (cachedEntry T)) size :
  sum_entries sizer l size = sum_Entry sizer (omap value l) size.
Proof.
  revert size. induction l as [| x l IH]; intros size; [reflexivity |].
  simpl. destruct (value x) as [v |]; simpl; [| apply IH].
  destruct (memsize_Entry sizer v); simpl; [apply IH | reflexivity].
Qed.

Lemma map_to_list_omap_value (m : gmap K (cachedEntry T)) :
  snd <$> map_to_list (omap value m) ≡ₚ omap value (snd <$> map_to_list m).
Proof.
  induction m as [| k e m Hk IH] using map_ind.
  - rewrite omap_empty, !map_to_list_empty. reflexivity.
  - rewrite (map_to_list_insert m k e Hk). simpl.
    destruct (value e) as [v |] eqn:Hv.
    + rewrite (omap_insert_Some value m k e v Hv).
      rewrite map_to_list_insert by (rewrite lookup_omap, Hk; reflexivity).
      simpl. rewrite IH. reflexivity.
    + rewrite (omap_insert_None value m k e Hv).
      rewrite delete_id by (rewrite lookup_omap, Hk; reflexivity).
      exact IH.
Qed.

(** X21. [updateMemsize] computes what [memsize.Entries] computes on the
    values that are present: the figure it stores is [memsize.Entries]
    of the index restricted to the entries with a value, and it panics
    exactly when that does. *)
Theorem updateMemsize_is_Entries sizer c :
  sum_entries sizer (snd <$> map_to_list (data c)) 0
  = memsize_Entries sizer (omap value (data c)) /\
  updateMemsize sizer c =
  match memsize_Entries sizer (omap value (data c)) with
  | None => c
  | Some size =>
      metrics_do (MemoryUsage_Set (float64_of_uint64 size)) (with_memSizeValue size c)
  end.
Proof.
  assert (Heq : sum_entries sizer (snd <$> map_to_list (data c)) 0
                = memsize_Entries sizer (omap value (data c))).
  { unfold memsize_Entries. rewrite sum_entries_omap.
    symmetry. apply sum_Entry_Permutation. apply map_to_list_omap_value. }
  split; [exact Heq |]. unfold updateMemsize. rewrite Heq. reflexivity.
Qed.

End MemsizeProperties.

(** ** What a new cache looks like *)

Section NewCacheProperties.

Context {K : Type} `{Countable K} {T : Type}.

Lemma Metrics_New_zero (nm : string) (registry : Registry) (m : Metrics) :
  Metrics_New nm registry = inl m -> m = mkMetrics 0 0 0 0 0 0 0.
Proof.
  unfold Metrics_New.
  repeat (match goal with
          | |- context [match Register registry ?x with _ => _ end] =>
              destruct (Register registry x)
          end; [discriminate |]).
  congruence.
Qed.

(** X22. Every cache that [NewCache] returns is empty (no key, nothing
    armed, no loader call made), carries the parameters it was given,
    has a name that is not empty and timeouts that pass the check (TTL
    is not 0, ReloadInterval does not exceed it), and has a metrics sink
    exactly when a registry was given, with every counter at 0. *)
Theorem NewCache_postcondition (params : Params K T) (g : Source) (c : Cache K T) :
  NewCache params g = inl c ->
  data c = ∅ /\ ttlWatcher c = nil /\ reloadWatcher c = nil /\
  loaderCalls c = nil /\ memSizeValue c = 0 /\ rand c = g /\
  name c = p_Name params /\ name c <> ""%string /\
  timeouts c = p_Timeouts params /\
  TTL (timeouts c) <> 0 /\ ReloadInterval (timeouts c) <= TTL (timeouts c) /\
  automaticReload c = p_AutomaticReload params /\
  p_LoadOneFunc params = Some (loadOneFunc c) /\
  (metrics c = None <-> p_MetricsRegistry params = None) /\
  (forall m, metrics c = Some m -> m = mkMetrics 0 0 0 0 0 0 0).
Proof.
  unfold NewCache.
  destruct (Params_check params) as [err |] eqn:Hcheck; [discriminate |].
  apply Params_check_None in Hcheck as (_ & Hname & _ & Htm).
  apply Timeouts_check_None in Htm as (Httl & Hri & _).
  destruct (p_LoadOneFunc params) as [loader |];
    destruct (p_MetricsRegistry params) as [registry |];
    try destruct (Metrics_New (p_Name params) registry) as [m | err] eqn:Hnew;
    try discriminate; intros [= <-]; simpl;
    repeat (split; try assumption; try reflexivity; try discriminate).
  intros m0 [= <-]. eapply Metrics_New_zero. exact Hnew.
Qed.

End NewCacheProperties.

(** ** Goroutines: the fast path and the re-check under the lock *)

Module InterleavingRuns.
Import Interleaving.

Section Runs.

Context {K : Type} `{Countable K} {T : Type}.
Implicit Types (s : State K T) (t : tid) (h : handle) (e : cachedEntry T).

Lemma pc_of_goto_eq t (p : pc K) s : pc_of (goto t p s) t = p.
Proof. unfold pc_of, goto. simpl. rewrite lookup_insert_eq. reflexivity. Qed.

Lemma pc_of_goto_ne t t' (p : pc K) s : t <> t' -> pc_of (goto t p s) t' = pc_of s t'.
Proof. intros Hne. unfold pc_of, goto. simpl. rewrite lookup_insert_ne by exact Hne. reflexivity. Qed.

Lemma run_cons_Some t (a : action K T) rest s s1 :
  step t a s = Some s1 -> run ((t, a) :: rest) s = run rest s1.
Proof. intros Hs. simpl. rewrite Hs. reflexivity. Qed.

(** X23. The fast path takes no lock.  A goroutine that calls [Get] for
    a key whose entry is fresh finishes in two actions, the lookup and
    the read, whoever holds the entry's mutex at the time: the entry ends
    up accessed with its value and deadline as they were, and the record
    of holders is what it was. *)
Theorem fresh_read_never_blocks t ID nowMillis later s h e :
  pc_of s t = Idle ->
  index s !! ID = Some h ->
  store s !! h = Some e ->
  nowMillis < nextReload e ->
  exists s',
    run ((t, CallGet ID nowMillis) :: (t, Advance later) :: nil) s = Some s' /\
    pc_of s' t = Idle /\
    store s' !! h = Some (mkEntry (nextReload e) true (value e)) /\
    holder s' = holder s /\ index s' = index s.
Proof.
  intros Hidle Hix Hst Hfresh. apply Z.ltb_lt in Hfresh.
  assert (H1 : step t (CallGet ID nowMillis) s
               = Some (goto t (GetFound ID nowMillis h) s)).
  { unfold step. rewrite Hidle, Hix. reflexivity. }
  assert (H2 : step t (Advance later) (goto t (GetFound ID nowMillis h) s)
               = Some (goto t Idle
                         (write h (mkEntry (nextReload e) true (value e))
                            (goto t (GetFound ID nowMillis h) s)))).
  { unfold step. rewrite pc_of_goto_eq.
    change (store (goto t (GetFound ID nowMillis h) s)) with (store s).
    rewrite Hst. simpl. rewrite Hfresh. unfold get_at.
    change (store (goto t (GetFound ID nowMillis h) s)) with (store s).
    rewrite Hst. simpl. destruct e as [nr [|] v0]; reflexivity. }
  eexists. split.
  - rewrite (run_cons_Some _ _ _ _ _ H1), (run_cons_Some _ _ _ _ _ H2). reflexivity.
  - split; [apply pc_of_goto_eq |]. simpl.
    split; [apply lookup_insert_eq | split; reflexivity].
Qed.

(** X24. The re-check under the lock.  A goroutine that found an entry
    due and waits for its mutex while another goroutine is inside the
    loader for that entry cannot go on.  Once that loader has returned a
    value, the other goroutine is back and the entry holds the loaded
    value; the waiting goroutine takes the mutex and compares the clock
    it read before waiting with the entry's new deadline.  If its clock
    is before the deadline it returns without calling the loader and the
    mutex is free; if not (the load outlasted the reload interval) it
    calls the loader itself, holding the mutex. *)
Theorem waiter_rechecks_under_lock t t' ID nowMillis nowMillis' later h e
    (v : option T) init s :
  t <> t' ->
  pc_of s t = GetLock ID nowMillis h ->
  pc_of s t' = GetLoading ID nowMillis' h init ->
  holder s !! h = Some t' ->
  store s !! h = Some e ->
  let r := Randomizer (st_timeouts s) in
  let reload :=
    add64 nowMillis'
      (Milliseconds (jitter (ReloadInterval (st_timeouts s)) r
                       (jitter_next (TTL (st_timeouts s)) r (st_rand s)))) in
  step t (Advance later) s = None /\
  exists s',
    run ((t', LoaderReturns v None) :: (t, Advance later) :: (t, Advance later) :: nil) s
    = Some s' /\
    pc_of s' t' = Idle /\
    store s' !! h = Some (mkEntry reload true v) /\
    (nowMillis < reload -> pc_of s' t = Idle /\ holder s' !! h = None) /\
    (reload <= nowMillis ->
     pc_of s' t = GetLoading ID nowMillis h false /\ holder s' !! h = Some t).
Proof.
  intros Hne Hpc Hpc' Hheld Hst r reload.
  split.
  { unfold step. rewrite Hpc, Hheld. reflexivity. }
  set (e1 := mkEntry reload true v).
  set (g1 := jitter_next (ReloadInterval (st_timeouts s)) r
               (jitter_next (TTL (st_timeouts s)) r (st_rand s))).
  set (s1 := goto t' Idle
               (write h e1
                  (unlock h (set_rand g1 (write h (mkEntry reload false v) s))))).
  assert (H1 : step t' (LoaderReturns v None) s = Some s1).
  { unfold step. rewrite Hpc'. unfold set_at. rewrite Hst. simpl.
    unfold cachedEntry_set. rewrite RandomizeDuration_eq, set_end_eq. simpl.
    unfold get_at. simpl. rewrite lookup_insert_eq. simpl. reflexivity. }
  set (s2 := goto t (GetLocked ID nowMillis h) (lock h t s1)).
  assert (H2 : step t (Advance later) s1 = Some s2).
  { unfold step. unfold s1 at 1. rewrite pc_of_goto_ne by congruence.
    change (pc_of _ t) with (pc_of s t). rewrite Hpc.
    assert (Hfree : holder s1 !! h = None) by (simpl; apply lookup_delete_eq).
    rewrite Hfree. reflexivity. }
  assert (Hst2 : store s2 !! h = Some e1) by (simpl; apply lookup_insert_eq).
  assert (Hp2 : pc_of s2 t' = Idle).
  { unfold s2. rewrite pc_of_goto_ne by exact Hne.
    change (pc_of _ t') with (pc_of s1 t'). apply pc_of_goto_eq. }
  destruct (Z.ltb_spec nowMillis reload) as [Hfresh | Hdue].
  - set (s3 := goto t Idle (write h e1 (unlock h s2))).
    assert (H3 : step t (Advance later) s2 = Some s3).
    { unfold step. unfold s2 at 1. rewrite pc_of_goto_eq. rewrite Hst2. simpl.
      apply Z.ltb_lt in Hfresh. rewrite Hfresh. unfold get_at.
      change (store (unlock h s2)) with (store s2). rewrite Hst2. reflexivity. }
    exists s3. split.
    { rewrite (run_cons_Some _ _ _ _ _ H1), (run_cons_Some _ _ _ _ _ H2),
        (run_cons_Some _ _ _ _ _ H3). reflexivity. }
    split.
    { unfold s3. rewrite pc_of_goto_ne by exact Hne.
      change (pc_of _ t') with (pc_of s2 t'). exact Hp2. }
    split; [simpl; apply lookup_insert_eq |].
    split.
    + intros _. split; [apply pc_of_goto_eq | simpl; apply lookup_delete_eq].
    + intros Hge. lia.
  - set (s3 := goto t (GetLoading ID nowMillis h false) s2).
    assert (H3 : step t (Advance later) s2 = Some s3).
    { unfold step. unfold s2 at 1. rewrite pc_of_goto_eq. rewrite Hst2. simpl.
      apply Z.ltb_ge in Hdue. rewrite Hdue. reflexivity. }
    exists s3. split.
    { rewrite (run_cons_Some _ _ _ _ _ H1), (run_cons_Some _ _ _ _ _ H2),
        (run_cons_Some _ _ _ _ _ H3). reflexivity. }
    split.
    { unfold s3. rewrite pc_of_goto_ne by exact Hne. exact Hp2. }
    split; [exact Hst2 |].
    split.
    + intros Hlt. lia.
    + intros _. split; [apply pc_of_goto_eq | simpl; apply lookup_insert_eq].
Qed.

End Runs.

End InterleavingRuns.


(** ** The sentinel never reaches the TTL watcher *)

Section TTLWatcherProperties.

Context {K : Type} `{Countable K} {T : Type}.
Implicit Types (c : Cache K T) (p : Prison K) (k ID : K).

Lemma nonnegative_pushes_guarded p k (ttl : Duration) :
  nonnegative_pushes p ->
  nonnegative_pushes (if ttl >=? 0 then Push k ttl :: p else p).
Proof.
  intros Hp. destruct (Z.geb_spec ttl 0) as [Hge | Hlt]; [| exact Hp].
  intros k' d [Heq | Hin]; [injection Heq as _ <-; lia | eauto].
Qed.

Lemma nonnegative_pushes_Drop p k :
  nonnegative_pushes p -> nonnegative_pushes (Drop k :: p).
Proof. intros Hp k' d [Heq | Hin]; [discriminate | eauto]. Qed.

(** X25. The TTL watcher is never armed with a negative duration: the -1
    that [set] returns for "leave the deadline alone", and any negative
    duration a jitter may produce, stop at the guard of
    [setEntryWatchers].  If every duration pushed so far is
    non-negative, it is still so after [Get], [Remove], [Invalidate],
    the preload path, a turn of either watcher and [updateMemsize]. *)
Theorem ttlWatcher_never_negative ID nowMillis (le : LoadedEntry K T)
    (sizer : Sizer T) c :
  nonnegative_pushes (ttlWatcher c) ->
  nonnegative_pushes (ttlWatcher (snd (Get ID nowMillis c))) /\
  nonnegative_pushes (ttlWatcher (Remove ID c)) /\
  nonnegative_pushes (ttlWatcher (Invalidate ID c)) /\
  nonnegative_pushes (ttlWatcher (addLoadedEntry le nowMillis c)) /\
  nonnegative_pushes (ttlWatcher (ttlWatcher_fired ID c)) /\
  nonnegative_pushes (ttlWatcher (reloadWatcher_fired ID nowMillis c)) /\
  nonnegative_pushes (ttlWatcher (updateMemsize sizer c)).
Proof.
  intros Hp. repeat split.
  - destruct (data c !! ID) as [e |] eqn:Hk.
    + destruct (Z.lt_ge_cases nowMillis (nextReload e)) as [Hfresh | Hdue].
      * rewrite (Get_fresh_eq _ _ _ _ Hk Hfresh). simpl.
        unfold metrics_do. destruct (metrics c); exact Hp.
      * rewrite (Get_load_eq ID nowMillis c (Some e) Hk)
          by (intros e0 [= <-]; exact Hdue).
        cbv zeta. simpl. apply nonnegative_pushes_guarded, Hp.
    + rewrite (Get_load_eq ID nowMillis c None Hk) by (intros e0 [=]).
      cbv zeta. simpl. apply nonnegative_pushes_guarded, Hp.
  - unfold Remove. destruct (data c !! ID); [| exact Hp].
    unfold metrics_do. simpl.
    destruct (metrics c); simpl; apply nonnegative_pushes_Drop, Hp.
  - unfold Invalidate. destruct (data c !! ID); [| exact Hp]. simpl.
    destruct (decide _); exact Hp.
  - unfold addLoadedEntry.
    destruct (cachedEntry_set _ _ _ _ _ _ _) as [[ttl entry] g].
    unfold setEntryWatchers, metrics_do.
    destruct c as [nm tm ld mode met tw rw ms dt g0 calls]; simpl in *.
    destruct (_ && _); simpl; destruct met; simpl; try exact Hp;
      pose proof (nonnegative_pushes_guarded tw (le_ID le) ttl Hp) as Hg;
      destruct (ttl >=? 0); simpl; destruct (decide _); exact Hg.
  - unfold ttlWatcher_fired. destruct (data c !! ID); [| exact Hp].
    unfold metrics_do. simpl. destruct (metrics c); exact Hp.
  - unfold reloadWatcher_fired. destruct (data c !! ID) as [e |]; [| exact Hp].
    destruct (_ && _); [exact Hp |].
    rewrite reloadWatcher_reload_eq. cbv zeta. simpl.
    apply nonnegative_pushes_guarded, Hp.
  - unfold updateMemsize. destruct (sum_entries _ _ _); [| exact Hp].
    unfold metrics_do. simpl. destruct (metrics c); exact Hp.
Qed.

End TTLWatcherProperties.

(** ** The further properties at concrete inputs *)

(** X1 on the cache with a metrics sink that holds key 2, one
    millisecond after the load: reads_count goes from 1 to 2. *)
Lemma Get_fresh_hit_witness :
  let c := Scenario.read_with_metrics in
  let e := mkEntry (Scenario.nowMillis + 3000) true (Some "value"%string) in
  data c !! 2 = Some e /\
  Scenario.nowMillis + 1 < nextReload e /\
  metrics c = Some (mkMetrics 0 0 1 0 1 0 0) /\
  fst (Get 2 (Scenario.nowMillis + 1) c) = value e /\
  loaderCalls (snd (Get 2 (Scenario.nowMillis + 1) c)) = loaderCalls c /\
  metrics (snd (Get 2 (Scenario.nowMillis + 1) c)) = Some (mkMetrics 0 0 1 0 2 0 0).
Proof.
  intros c e.
  assert (Hk : data c !! 2 = Some e) by (vm_compute; reflexivity).
  assert (Hf : Scenario.nowMillis + 1 < nextReload e) by (vm_compute; reflexivity).
  assert (Hm : metrics c = Some (mkMetrics 0 0 1 0 1 0 0)) by (vm_compute; reflexivity).
  pose proof (Get_fresh_hit 2 (Scenario.nowMillis + 1) c e Hk Hf)
    as (Hv & _ & Hl & _ & _ & _ & Hme).
  split; [exact Hk |]. split; [exact Hf |]. split; [exact Hm |].
  split; [exact Hv |]. split; [exact Hl |].
  eapply eq_trans; [exact Hme |]. rewrite Hm. reflexivity.
Defined.

(** X2 on the empty cache, for key 0, where the loader fails: nil is
    returned and the key is in the index. *)
Lemma Get_miss_witness :
  let c := Scenario.cache Scenario.cacheTestTimeouts AutomaticReloadDisabled in
  data c !! 0 = None /\
  loadOneFunc c 0 (loaderCalls c) = (None, Some (errorString "adhoc error")) /\
  fst (Get 0 Scenario.nowMillis c) = None /\
  loaderCalls (snd (Get 0 Scenario.nowMillis c)) = loaderCalls c ++ 0 :: nil.
Proof.
  intros c.
  assert (Hk : data c !! 0 = None) by (vm_compute; reflexivity).
  assert (Hl : loadOneFunc c 0 (loaderCalls c)
               = (None, Some (errorString "adhoc error"))) by reflexivity.
  pose proof (Get_miss 0 Scenario.nowMillis c _ _ Hk Hl) as (Hv & Hc & _).
  split; [exact Hk |]. split; [exact Hl |]. split; [exact Hv | exact Hc].
Defined.

(** X3 on key 0, preloaded with a value on a cache with a metrics sink,
    read when it is due: the loader fails, the old value is returned,
    and reads_count, lazy_loads and error_loads go from 0 to 1. *)
Lemma Get_stale_error_serves_old_witness :
  let c := Scenario.preloaded_old in
  let e := mkEntry (Scenario.nowMillis + 3000) false (Some "old"%string) in
  data c !! 0 = Some e /\
  nextReload e <= Scenario.nowMillis + 3000 /\
  loadOneFunc c 0 (loaderCalls c) = (None, Some (errorString "adhoc error")) /\
  is_generic_error (Some (errorString "adhoc error")) = true /\
  metrics c = Some (mkMetrics 1 0 0 0 0 0 0) /\
  fst (Get 0 (Scenario.nowMillis + 3000) c) = value e /\
  ttlWatcher (snd (Get 0 (Scenario.nowMillis + 3000) c)) = ttlWatcher c /\
  metrics (snd (Get 0 (Scenario.nowMillis + 3000) c))
  = Some (mkMetrics 1 0 1 1 1 0 0).
Proof.
  intros c e.
  assert (Hk : data c !! 0 = Some e) by (vm_compute; reflexivity).
  assert (Hd : nextReload e <= Scenario.nowMillis + 3000)
    by (vm_compute; discriminate).
  assert (Hl : loadOneFunc c 0 (loaderCalls c)
               = (None, Some (errorString "adhoc error"))) by (vm_compute; reflexivity).
  assert (Hm : metrics c = Some (mkMetrics 1 0 0 0 0 0 0)) by (vm_compute; reflexivity).
  pose proof (Get_stale_error_serves_old 0 (Scenario.nowMillis + 3000) c e _ _
                Hk Hd Hl eq_refl) as (Hv & Ht & _ & Hme).
  split; [exact Hk |]. split; [exact Hd |]. split; [exact Hl |].
  split; [reflexivity |]. split; [exact Hm |].
  split; [exact Hv |]. split; [exact Ht |].
  eapply eq_trans; [exact Hme |]. rewrite Hm. reflexivity.
Defined.

(** X5 on the empty cache: key 2 is read twice, one millisecond apart. *)
Lemma Get_repeat_witness :
  let c := Scenario.cache Scenario.cacheTestTimeouts AutomaticReloadDisabled in
  let e1 := mkEntry (Scenario.nowMillis + 3000) true (Some "value"%string) in
  data (snd (Get 2 Scenario.nowMillis c)) !! 2 = Some e1 /\
  Scenario.nowMillis + 1 < nextReload e1 /\
  Get 2 (Scenario.nowMillis + 1) (snd (Get 2 Scenario.nowMillis c)) =
  (fst (Get 2 Scenario.nowMillis c),
   metrics_do ReadsCount_Inc (snd (Get 2 Scenario.nowMillis c))).
Proof.
  intros c e1.
  assert (Hk : data (snd (Get 2 Scenario.nowMillis c)) !! 2 = Some e1)
    by (vm_compute; reflexivity).
  assert (Hf : Scenario.nowMillis + 1 < nextReload e1) by (vm_compute; reflexivity).
  split; [exact Hk |]. split; [exact Hf |].
  exact (Get_repeat 2 Scenario.nowMillis (Scenario.nowMillis + 1) c e1 Hk Hf).
Defined.

(** X6 on the cache that holds key 2: reading key 5 leaves key 2 alone. *)
Lemma Get_other_keys_witness :
  let c := Scenario.read_once AutomaticReloadDisabled in
  (2 : Z) <> 5 /\
  data (snd (Get 5 Scenario.nowMillis c)) !! 2 = data c !! 2.
Proof.
  intros c.
  assert (Hne : (2 : Z) <> 5) by discriminate.
  split; [exact Hne |].
  exact (proj2 (Get_other_keys 5 Scenario.nowMillis c) 2 Hne).
Defined.

(** X8 on the cache with a metrics sink: key 2 is read and removed, the
    index is empty again and items_count is -1. *)
Lemma Get_Remove_items_count_witness :
  let c := Scenario.cache_with_metrics Scenario.cacheTestTimeouts AutomaticReloadDisabled in
  data c !! 2 = None /\
  ItemsCount <$> metrics c = Some 0 /\
  data (Remove 2 (snd (Get 2 Scenario.nowMillis c))) = data c /\
  ItemsCount <$> metrics (Remove 2 (snd (Get 2 Scenario.nowMillis c)))
  = (fun n => n - 1) <$> (ItemsCount <$> metrics c).
Proof.
  intros c.
  assert (Hk : data c !! 2 = None) by (vm_compute; reflexivity).
  split; [exact Hk |]. split; [reflexivity |].
  exact (proj2 (Get_Remove_items_count 2 Scenario.nowMillis c) Hk).
Defined.

(** X9 on the cache that holds key 2 and not key 5. *)
Lemma Remove_gone_witness :
  let c := Scenario.read_once AutomaticReloadDisabled in
  is_Some (data c !! 2) /\
  Prison_pending (ttlWatcher (Remove 2 c)) 2 = None /\
  data c !! 5 = None /\
  Remove 5 c = c.
Proof.
  intros c.
  assert (Hk : is_Some (data c !! 2)) by (vm_compute; eauto).
  assert (Hn : data c !! 5 = None) by (vm_compute; reflexivity).
  destruct (Remove_gone 2 c) as (_ & _ & Hpend & _).
  destruct (Remove_gone 5 c) as (_ & _ & _ & Habs & _).
  split; [exact Hk |]. split; [exact (proj1 (Hpend Hk)) |].
  split; [exact Hn | exact (Habs Hn)].
Defined.

(** X11 on the cache that holds key 2. *)
Lemma ttlWatcher_fired_is_Remove_witness :
  let c := Scenario.read_once AutomaticReloadDisabled in
  is_Some (data c !! 2) /\
  Remove 2 c = with_ttlWatcher (Drop 2 :: ttlWatcher c) (ttlWatcher_fired 2 c).
Proof.
  intros c.
  assert (Hk : is_Some (data c !! 2)) by (vm_compute; eauto).
  split; [exact Hk |].
  exact (proj1 (ttlWatcher_fired_is_Remove 2 c Hk)).
Defined.

(** X12 in accessed-only mode, on key 2 read once: the second turn of
    the reload watcher does nothing. *)
Lemma consecutive_reload_turns_witness :
  let c := Scenario.read_once AutomaticReloadAccessedEntries in
  automaticReload c = AutomaticReloadAccessedEntries /\
  reloadWatcher_fired 2 (Scenario.nowMillis + 6000)
    (reloadWatcher_fired 2 (Scenario.nowMillis + 3000) c)
  = reloadWatcher_fired 2 (Scenario.nowMillis + 3000) c.
Proof.
  intros c.
  assert (Hm : automaticReload c = AutomaticReloadAccessedEntries)
    by (vm_compute; reflexivity).
  split; [exact Hm |].
  exact (proj2 (consecutive_reload_turns 2 (Scenario.nowMillis + 3000)
                  (Scenario.nowMillis + 6000) c) Hm).
Defined.

(** X13 on the empty cache with automatic reload disabled. *)
Lemma reload_disabled_never_pushes_witness :
  let c := Scenario.cache Scenario.cacheTestTimeouts AutomaticReloadDisabled in
  automaticReload c = AutomaticReloadDisabled /\
  reloadWatcher (snd (Get 2 Scenario.nowMillis c)) = reloadWatcher c.
Proof.
  intros c. split; [reflexivity |].
  exact (proj1 (reload_disabled_never_pushes 2 Scenario.nowMillis
                  Scenario.preloadValue c eq_refl)).
Defined.

(** X14 on the empty cache with automatic reload of all entries. *)
Lemma Get_arms_reload_watcher_witness :
  let c := Scenario.cache Scenario.cacheTestTimeouts AutomaticReloadAllEntries in
  automaticReload c <> AutomaticReloadDisabled /\
  data c !! 2 = None /\
  exists e1,
    data (snd (Get 2 Scenario.nowMillis c)) !! 2 = Some e1 /\
    Prison_pending (reloadWatcher (snd (Get 2 Scenario.nowMillis c))) 2
    = Some (mul64 (sub64 (nextReload e1) Scenario.nowMillis) Millisecond).
Proof.
  intros c.
  assert (Hm : automaticReload c <> AutomaticReloadDisabled) by discriminate.
  assert (Hk : data c !! 2 = None) by (vm_compute; reflexivity).
  split; [exact Hm |]. split; [exact Hk |].
  apply (Get_arms_reload_watcher 2 Scenario.nowMillis c Hm).
  intros e He. rewrite Hk in He. discriminate.
Defined.

(** X16 on the cache that holds key 2, still fresh: after [Invalidate]
    the next [Get] calls the loader. *)
Lemma Invalidate_then_Get_reloads_witness :
  let c := Scenario.read_once AutomaticReloadDisabled in
  let e := mkEntry (Scenario.nowMillis + 3000) true (Some "value"%string) in
  data c !! 2 = Some e /\
  0 <= Scenario.nowMillis + 1 /\
  loaderCalls (snd (Get 2 (Scenario.nowMillis + 1) (Invalidate 2 c)))
  = loaderCalls c ++ 2 :: nil.
Proof.
  intros c e.
  assert (Hk : data c !! 2 = Some e) by (vm_compute; reflexivity).
  assert (Hn : 0 <= Scenario.nowMillis + 1) by (vm_compute; discriminate).
  split; [exact Hk |]. split; [exact Hn |].
  exact (Invalidate_then_Get_reloads 2 (Scenario.nowMillis + 1) c e Hk Hn).
Defined.

(** X17 on the empty cache: a value preloaded for key 2 is served one
    millisecond later. *)
Lemma preloaded_value_served_witness :
  let c := Scenario.cache Scenario.cacheTestTimeouts AutomaticReloadDisabled in
  let c1 := addLoadedEntry Scenario.preloadValue Scenario.nowMillis c in
  le_Err Scenario.preloadValue = None /\
  fst (Get 2 (Scenario.nowMillis + 1) c1) = Some "value"%string /\
  loaderCalls (snd (Get 2 (Scenario.nowMillis + 1) c1)) = nil.
Proof.
  intros c c1.
  destruct (preloaded_value_served Scenario.preloadValue Scenario.nowMillis
              (Scenario.nowMillis + 1) c eq_refl) as [_ Hserved].
  split; [reflexivity |].
  apply Hserved. vm_compute. reflexivity.
Defined.

(** X18 with a reload interval of half a millisecond: key 2 is loaded
    twice by two reads at the same instant. *)
Lemma sub_millisecond_reload_interval_witness :
  let c := Scenario.cache Scenario.subMillisecondTimeouts AutomaticReloadDisabled in
  Timeouts_check (timeouts c) = None /\
  Randomizer (timeouts c) = 0%float /\
  - Millisecond < ReloadInterval (timeouts c) < Millisecond /\
  in_int64 Scenario.nowMillis /\
  data c !! 2 = None /\
  loaderCalls (snd (Get 2 Scenario.nowMillis (snd (Get 2 Scenario.nowMillis c))))
  = loaderCalls c ++ 2 :: 2 :: nil.
Proof.
  intros c.
  assert (Hri : - Millisecond < ReloadInterval (timeouts c) < Millisecond)
    by (split; vm_compute; reflexivity).
  assert (Hin : in_int64 Scenario.nowMillis)
    by (split; vm_compute; discriminate).
  assert (Hk : data c !! 2 = None) by (vm_compute; reflexivity).
  split; [reflexivity |]. split; [reflexivity |]. split; [exact Hri |].
  split; [exact Hin |]. split; [exact Hk |].
  refine (proj2 (sub_millisecond_reload_interval 2 Scenario.nowMillis
                   Scenario.nowMillis c eq_refl Hri Hin _ _)).
  - intros e He. rewrite Hk in He. discriminate.
  - apply Z.le_refl.
Defined.

(** X19 on the cache with keys 0, 1 and 2: the entries listed in
    another order than that of [map_to_list] give the figure 5, the
    length of the one value. *)
Lemma updateMemsize_any_order_witness :
  let c := Scenario.three_keys in
  let entries :=
    mkEntry (Scenario.nowMillis + 3000) true None ::
    mkEntry (Scenario.nowMillis + 3000) true (Some "value"%string) ::
    mkEntry (Scenario.nowMillis + 3000) true None :: nil in
  entries ≡ₚ snd <$> map_to_list (data c) /\
  sum_entries Scenario.lengthSizer entries 0 = Some 5 /\
  memSizeValue (updateMemsize Scenario.lengthSizer c) = 5.
Proof.
  intros c entries.
  assert (Hp : entries ≡ₚ snd <$> map_to_list (data c)).
  { assert (Hl : snd <$> map_to_list (data c)
                 = mkEntry (Scenario.nowMillis + 3000) true (Some "value"%string) ::
                   mkEntry (Scenario.nowMillis + 3000) true None ::
                   mkEntry (Scenario.nowMillis + 3000) true None :: nil)
      by (vm_compute; reflexivity).
    rewrite Hl. unfold entries. apply perm_swap. }
  assert (Hs : sum_entries Scenario.lengthSizer entries 0 = Some 5)
    by (vm_compute; reflexivity).
  split; [exact Hp |]. split; [exact Hs |].
  rewrite (updateMemsize_any_order Scenario.lengthSizer c entries Hp), Hs.
  vm_compute. reflexivity.
Defined.

(** X20 on the same cache with an estimator that panics: nothing
    changes. *)
Lemma updateMemsize_barrier_witness :
  let c := Scenario.three_keys in
  let e := mkEntry (Scenario.nowMillis + 3000) true (Some "value"%string) in
  data c !! 2 = Some e /\
  memsize_Entry Scenario.panickingSizer "value"%string = None /\
  updateMemsize Scenario.panickingSizer c = c.
Proof.
  intros c e.
  assert (Hk : data c !! 2 = Some e) by (vm_compute; reflexivity).
  split; [exact Hk |]. split; [reflexivity |].
  apply (proj1 (updateMemsize_barrier Scenario.panickingSizer c)).
  exists 2, e, "value"%string. split; [exact Hk |]. split; reflexivity.
Defined.

(** X22 on the parameters of the package's tests. *)
Lemma NewCache_postcondition_witness :
  let params := Scenario.params Scenario.cacheTestTimeouts AutomaticReloadDisabled in
  let c := Scenario.cache Scenario.cacheTestTimeouts AutomaticReloadDisabled in
  NewCache params Scenario.source = inl c /\
  data c = ∅ /\ TTL (timeouts c) <> 0.
Proof.
  intros params c.
  assert (Hn : NewCache params Scenario.source = inl c) by reflexivity.
  destruct (NewCache_postcondition params Scenario.source c Hn)
    as (Hd & _ & _ & _ & _ & _ & _ & _ & _ & Httl & _).
  split; [exact Hn |]. split; [exact Hd | exact Httl].
Defined.

(** X23 while the reload watcher (goroutine 2) holds the mutex of the
    entry of key 7 and is inside the loader: goroutine 1 reads the key
    in two actions. *)
Lemma fresh_read_never_blocks_witness :
  let s := Scenario.reloading in
  let e := mkEntry (Scenario.nowMillis + 3000) true (Some "value"%string) in
  Interleaving.holder s !! 0%nat = Some 2%nat /\
  Interleaving.pc_of s 1%nat = Interleaving.Idle /\
  Interleaving.index s !! 7 = Some 0%nat /\
  Interleaving.store s !! 0%nat = Some e /\
  Scenario.nowMillis + 2 < nextReload e /\
  exists s',
    Interleaving.run
      ((1%nat, Interleaving.CallGet 7 (Scenario.nowMillis + 2)) ::
       (1%nat, Interleaving.Advance 0) :: nil) s = Some s' /\
    Interleaving.pc_of s' 1%nat = Interleaving.Idle /\
    Interleaving.store s' !! 0%nat = Some (mkEntry (nextReload e) true (value e)) /\
    Interleaving.holder s' = Interleaving.holder s /\
    Interleaving.index s' = Interleaving.index s.
Proof.
  intros s e.
  assert (Hh : Interleaving.holder s !! 0%nat = Some 2%nat) by (vm_compute; reflexivity).
  assert (Hp : Interleaving.pc_of s 1%nat = Interleaving.Idle) by (vm_compute; reflexivity).
  assert (Hi : Interleaving.index s !! 7 = Some 0%nat) by (vm_compute; reflexivity).
  assert (Hs : Interleaving.store s !! 0%nat = Some e) by (vm_compute; reflexivity).
  assert (Hf : Scenario.nowMillis + 2 < nextReload e) by (vm_compute; reflexivity).
  split; [exact Hh |]. split; [exact Hp |]. split; [exact Hi |].
  split; [exact Hs |]. split; [exact Hf |].
  exact (InterleavingRuns.fresh_read_never_blocks 1%nat 7 (Scenario.nowMillis + 2) 0
           s 0%nat e Hp Hi Hs Hf).
Defined.

(** X24 while goroutine 0 is inside the loader after a miss on key 7 and
    goroutine 1 waits for the mutex.  With the clock of goroutine 1 at
    that of the load it is served; with its clock three seconds later,
    where the new deadline lies, it calls the loader itself. *)
Lemma waiter_rechecks_under_lock_witness :
  let returned :=
    (0%nat, Interleaving.LoaderReturns (Some "value"%string) None) ::
    (1%nat, Interleaving.Advance 0) :: (1%nat, Interleaving.Advance 0) :: nil in
  let loaded := mkEntry (Scenario.nowMillis + 3000) true (Some "value"%string) in
  (Interleaving.pc_of Scenario.waiting 1%nat
   = Interleaving.GetLock 7 Scenario.nowMillis 0%nat /\
   Interleaving.pc_of Scenario.waiting 0%nat
   = Interleaving.GetLoading 7 Scenario.nowMillis 0%nat true /\
   Interleaving.holder Scenario.waiting !! 0%nat = Some 0%nat /\
   Interleaving.store Scenario.waiting !! 0%nat = Some newEntry /\
   Interleaving.step 1%nat (Interleaving.Advance 0) Scenario.waiting = None /\
   exists s',
     Interleaving.run returned Scenario.waiting = Some s' /\
     Interleaving.store s' !! 0%nat = Some loaded /\
     Interleaving.pc_of s' 1%nat = Interleaving.Idle /\
     Interleaving.holder s' !! 0%nat = None) /\
  (Interleaving.pc_of Scenario.waiting_late 1%nat
   = Interleaving.GetLock 7 (Scenario.nowMillis + 3000) 0%nat /\
   exists s',
     Interleaving.run returned Scenario.waiting_late = Some s' /\
     Interleaving.store s' !! 0%nat = Some loaded /\
     Interleaving.pc_of s' 1%nat
     = Interleaving.GetLoading 7 (Scenario.nowMillis + 3000) 0%nat false /\
     Interleaving.holder s' !! 0%nat = Some 1%nat).
Proof.
  intros returned loaded.
  assert (Hne : 1%nat <> 0%nat) by discriminate.
  split.
  - assert (H1 : Interleaving.pc_of Scenario.waiting 1%nat
                 = Interleaving.GetLock 7 Scenario.nowMillis 0%nat)
      by (vm_compute; reflexivity).
    assert (H0 : Interleaving.pc_of Scenario.waiting 0%nat
                 = Interleaving.GetLoading 7 Scenario.nowMillis 0%nat true)
      by (vm_compute; reflexivity).
    assert (Hh : Interleaving.holder Scenario.waiting !! 0%nat = Some 0%nat)
      by (vm_compute; reflexivity).
    assert (Hs : Interleaving.store Scenario.waiting !! 0%nat = Some newEntry)
      by (vm_compute; reflexivity).
    pose proof (InterleavingRuns.waiter_rechecks_under_lock 1%nat 0%nat 7
                  Scenario.nowMillis Scenario.nowMillis 0 0%nat newEntry
                  (Some "value"%string) true Scenario.waiting Hne H1 H0 Hh Hs)
      as (Hblocked & s' & Hrun & _ & Hst & Hserved & _).
    split; [exact H1 |]. split; [exact H0 |]. split; [exact Hh |].
    split; [exact Hs |]. split; [exact Hblocked |].
    exists s'. split; [exact Hrun |].
    split; [eapply eq_trans; [exact Hst |]; vm_compute; reflexivity |].
    apply Hserved. vm_compute. reflexivity.
  - assert (H1 : Interleaving.pc_of Scenario.waiting_late 1%nat
                 = Interleaving.GetLock 7 (Scenario.nowMillis + 3000) 0%nat)
      by (vm_compute; reflexivity).
    assert (H0 : Interleaving.pc_of Scenario.waiting_late 0%nat
                 = Interleaving.GetLoading 7 Scenario.nowMillis 0%nat true)
      by (vm_compute; reflexivity).
    assert (Hh : Interleaving.holder Scenario.waiting_late !! 0%nat = Some 0%nat)
      by (vm_compute; reflexivity).
    assert (Hs : Interleaving.store Scenario.waiting_late !! 0%nat = Some newEntry)
      by (vm_compute; reflexivity).
    pose proof (InterleavingRuns.waiter_rechecks_under_lock 1%nat 0%nat 7
                  (Scenario.nowMillis + 3000) Scenario.nowMillis 0 0%nat newEntry
                  (Some "value"%string) true Scenario.waiting_late Hne H1 H0 Hh Hs)
      as (_ & s' & Hrun & _ & Hst & _ & Hloads).
    split; [exact H1 |].
    exists s'. split; [exact Hrun |].
    split; [eapply eq_trans; [exact Hst |]; vm_compute; reflexivity |].
    apply Hloads. vm_compute. discriminate.
Defined.

(** X25 on the empty cache: after a read of key 0, whose load fails, the
    TTL watcher holds ErrorTTL and nothing negative. *)
Lemma ttlWatcher_never_negative_witness :
  let c := Scenario.cache Scenario.cacheTestTimeouts AutomaticReloadDisabled in
  nonnegative_pushes (ttlWatcher c) /\
  nonnegative_pushes (ttlWatcher (snd (Get 0 Scenario.nowMillis c))).
Proof.
  intros c.
  assert (Hp : nonnegative_pushes (ttlWatcher c)) by (intros k d []).
  split; [exact Hp |].
  exact (proj1 (ttlWatcher_never_negative 0 Scenario.nowMillis Scenario.preloadValue
                  Scenario.lengthSizer c Hp)).
Defined.
